(** * Geospatial metadata extractor: timeline, risk and statistics core

    A shallow embedding of [backend/analyzer.py], [backend/risk_module.py]
    and [backend/stats_module.py], of the conversions of
    [backend/extractor.py], and of the endpoint [get_analytics] of [app.py]
    that chains them.

    - Python floats are the kernel's binary64 floats ([PrimFloat]), so
      [/], [==], [>] and [float("inf")] are the IEEE operations the
      interpreter runs.
    - A Python exception is a value of [result]: [Raise e] propagates
      through [≫=] exactly like an uncaught exception, and [try_except]
      is the [try: ... except: ...] statement.
    - An observation (a Python [dict] with string keys) is a
      [gmap string pyval].
    - The third-party calls ([geopy.distance.geodesic],
      [dateutil.parser.parse], [math.sin], [math.cos], [math.atan2]), the
      power [**] of floats and the float-to-text conversion of f-strings
      are parameters of the development: every theorem holds for every
      implementation of them.
    - What Pillow decodes from an image file is the input of
      [extract_metadata]: the EXIF dictionary, or the failure to read one. *)

From Stdlib Require Import ZArith Floats String Ascii.
From stdpp Require Import base option list gmap strings pretty sorting.

Open Scope Z_scope.

(** ** Python numbers *)

Module PyFloat.

(** An [int] seen as an exact (unrounded) binary number. *)
Definition Z2SF (z : Z) : spec_float :=
  match z with
  | Z0 => S754_zero false
  | Zpos p => S754_finite false p 0
  | Zneg p => S754_finite true p 0
  end.

(** [a / b] on two [int]s with [b <> 0]: the quotient rounded once, to the
    nearest binary64 (ties to even), as [long_true_divide] does. *)
Definition int_truediv (a b : Z) : float :=
  SF2Prim (SFdiv prec emax (Z2SF a) (Z2SF b)).

(** [num / den] rounded to the nearest integer, ties to even ([0 < den]). *)
Definition round_half_even (num den : Z) : Z :=
  let q := num / den in
  let r := num mod den in
  match 2 * r ?= den with
  | Lt => q
  | Gt => q + 1
  | Eq => if Z.even q then q else q + 1
  end.

(** [round(x, ndigits)] on a float, [0 <= ndigits]: the exact binary value
    of [x] is rounded to [ndigits] decimals (ties to even) and the decimal
    obtained is converted back to the nearest float; NaN, the infinities
    and the zeros round to themselves ([float___round___impl]). *)
Definition py_round (x : float) (ndigits : Z) : float :=
  match Prim2SF x with
  | S754_finite s m e =>
      let scaled := Z.pos m * 10 ^ ndigits in
      let k := if 0 <=? e then scaled * 2 ^ e
               else round_half_even scaled (2 ^ (- e)) in
      if k =? 0 then (if s then PrimFloat.neg_zero else PrimFloat.zero)
      else int_truediv (if s then - k else k) (10 ^ ndigits)
  | _ => x
  end.

End PyFloat.
Import PyFloat.

(** ** Exceptions *)

Inductive exn : Set :=
  | KeyError | TypeError | ValueError | IndexError | ZeroDivisionError
  | OverflowError.

Inductive result (A : Type) : Type :=
  | Ok (a : A)
  | Raise (e : exn).
Arguments Ok {A} a.
Arguments Raise {A} e.

#[export] Instance result_ret : MRet result := λ A, Ok.
#[export] Instance result_bind : MBind result :=
  λ A B f m, match m with Ok a => f a | Raise e => Raise e end.
#[export] Instance result_fmap : FMap result :=
  λ A B f m, match m with Ok a => Ok (f a) | Raise e => Raise e end.

(** [try: body  except: handler] (a bare [except], or [except Exception]). *)
Definition try_except {A} (body : result A) (handler : exn → result A) : result A :=
  match body with
  | Ok a => Ok a
  | Raise e => handler e
  end.

(** A list comprehension or [for] loop whose body may raise: left to right,
    stopping at the first exception. *)
Fixpoint for_each {A B} (f : A → result B) (l : list A) : result (list B) :=
  match l with
  | [] => Ok []
  | a :: l => b ← f a; bs ← for_each f l; mret (b :: bs)
  end.

(** [l[i]] for [0 <= i]. *)
Definition index {A} (l : list A) (i : nat) : result A :=
  match l !! i with
  | Some a => Ok a
  | None => Raise IndexError
  end.

(** ** Python values and dictionaries

    The values [extract_metadata] and the vision fallback put in an
    observation: [None], a float, a string. *)

Inductive pyval : Set :=
  | VNone
  | VFloat (x : float)
  | VStr (s : string).

(** The truth value of an object: [None], [0.0], [-0.0] and the empty string are false. *)
Definition truthy (v : pyval) : bool :=
  match v with
  | VNone => false
  | VFloat x => negb (x =? 0)%float
  | VStr s => negb (String.eqb s EmptyString)
  end.

Definition is_not_None (v : pyval) : bool :=
  match v with VNone => false | _ => true end.

Abbreviation pydict := (gmap string pyval).

(** [d.get(k)] *)
Definition get (d : pydict) (k : string) : pyval := default VNone (d !! k).

(** [d[k]] *)
Definition getitem (d : pydict) (k : string) : result pyval :=
  match d !! k with
  | Some v => Ok v
  | None => Raise KeyError
  end.

(** [round(v, ndigits)] on an arbitrary object. *)
Definition round_val (v : pyval) (ndigits : Z) : result float :=
  match v with
  | VFloat x => Ok (py_round x ndigits)
  | _ => Raise TypeError
  end.

(** ** [datetime.datetime]

    [wall_us] is the wall-clock reading in microseconds since
    0001-01-01T00:00:00; [utcoffset_us] is [None] for a naive value. *)

Record datetime : Set := { wall_us : Z; utcoffset_us : option Z }.

Definition hour (d : datetime) : Z := (wall_us d / 3600000000) mod 24.

(** The instant two comparable values are ordered by. *)
Definition instant (d : datetime) : Z :=
  match utcoffset_us d with
  | None => wall_us d
  | Some o => wall_us d - o
  end.

Definition comparable (a b : datetime) : bool :=
  match utcoffset_us a, utcoffset_us b with
  | None, None | Some _, Some _ => true
  | _, _ => false
  end.

(** [a < b]: naive against aware raises [TypeError]. *)
Definition dt_lt (a b : datetime) : result bool :=
  if comparable a b then Ok (instant a <? instant b) else Raise TypeError.

(** [a - b], a [timedelta] counted in microseconds. *)
Definition dt_sub (a b : datetime) : result Z :=
  if comparable a b then Ok (instant a - instant b) else Raise TypeError.

(** [timedelta.total_seconds()] *)
Definition total_seconds (us : Z) : float := int_truediv us 1000000.

(** ** [sorted(l, key=...)]

    The keys are computed first, left to right; the list is then put in
    ascending order with [<] on the keys only, equal keys keeping their
    input order. *)

Section Sorted.
Context {A K : Type} (lt : K → K → result bool).

Fixpoint insert_sorted (x : K * A) (l : list (K * A)) : result (list (K * A)) :=
  match l with
  | [] => Ok [x]
  | y :: l' =>
      b ← lt y.1 x.1;
      if b : bool then l'' ← insert_sorted x l'; mret (y :: l'')
      else mret (x :: y :: l')
  end.

Fixpoint sort_keyed (l : list (K * A)) : result (list (K * A)) :=
  match l with
  | [] => Ok []
  | x :: l' => s ← sort_keyed l'; insert_sorted x s
  end.

Definition sorted (key : A → result K) (l : list A) : result (list A) :=
  keyed ← for_each (λ a, k ← key a; mret (k, a)) l;
  s ← sort_keyed keyed;
  mret (s.*2).
End Sorted.

(** A keyed element that sorts no later than another. *)
Definition keyed_le {A} (x y : datetime * A) : Prop :=
  comparable x.1 y.1 = true ∧ instant x.1 ≤ instant y.1.

(** ** backend/extractor.py

    A component of an EXIF coordinate as Pillow hands it over: a tuple
    [(numerator, denominator)], given by the values [float()] has on its two
    elements, or a number (an [IFDRational], a float), given by its value
    under [float()]. *)

Inductive exif_number : Set :=
  | Rational (numerator denominator : float)
  | Number (x : float).

(** [a / b] on two floats. *)
Definition float_truediv (a b : float) : result float :=
  if (b =? 0)%float then Raise ZeroDivisionError else Ok (a / b)%float.

(** [float(c[0]) / float(c[1]) if isinstance(c, tuple) else float(c)] *)
Definition rational_value (c : exif_number) : result float :=
  match c with
  | Rational a b => float_truediv a b
  | Number x => Ok x
  end.

(** [float(c)]: a tuple is no argument of [float]. *)
Definition float_of (c : exif_number) : result float :=
  match c with
  | Rational _ _ => Raise TypeError
  | Number x => Ok x
  end.

Definition _get_decimal_from_dms (dms : list exif_number) (ref : string)
  : result float :=
  degrees ← index dms 0; minutes ← index dms 1; seconds ← index dms 2;
  v ← try_except
        (deg ← rational_value degrees; min_val ← rational_value minutes;
         sec ← rational_value seconds; mret (deg, min_val, sec))
        (λ _, deg ← float_of degrees; min_val ← float_of minutes;
              sec ← float_of seconds; mret (deg, min_val, sec));
  let '(deg, min_val, sec) := v in
  let decimal := (deg + min_val / 60 + sec / 3600)%float in
  mret (if bool_decide (ref ∈ ["S"; "W"]) then (- decimal)%float else decimal).

(** The [GPSInfo] dictionary, by the four entries [extract_metadata] reads
    (the references are strings). *)
Record gps_dict : Set :=
  { GPSLatitude : option (list exif_number);
    GPSLatitudeRef : option string;
    GPSLongitude : option (list exif_number);
    GPSLongitudeRef : option string }.

(** The dictionary [_get_exif_data] returns, by the two entries
    [extract_metadata] reads ([DateTimeOriginal] as the text [str] gives)
    and whether it has any other entry. *)
Record exif_dict : Set :=
  { DateTimeOriginal : option string;
    GPSInfo : option gps_dict;
    other_tags : bool }.

(** What [Image.open] and [_get_exif_data] come to on a file: the
    dictionary, or an exception with its text. *)
Inductive exif_outcome : Set :=
  | Decoded (exif_data : exif_dict)
  | DecodeError (message : string).

(** The dictionary [extract_metadata] returns: the entry ["has_exif"], and
    the others. *)
Record metadata : Type := { has_exif : bool; entries : pydict }.

(** [not exif_data] *)
Definition exif_empty (exif_data : exif_dict) : bool :=
  match DateTimeOriginal exif_data, GPSInfo exif_data with
  | None, None => negb (other_tags exif_data)
  | _, _ => false
  end.

(** The date of lines 72-73: [YYYY:MM:DD ...] becomes [YYYY-MM-DD ...]. A
    character of the string is a character of the Python string. *)
Definition iso_date_str (date_str : string) : string :=
  if (10 <=? String.length date_str)%nat
     && bool_decide (String.get 4 date_str = Some ":"%char)
     && bool_decide (String.get 7 date_str = Some ":"%char)
  then String.substring 0 4 date_str +:+ "-"
       +:+ String.substring 5 2 date_str +:+ "-"
       +:+ String.substring 8 (String.length date_str - 8) date_str
  else date_str.

(** The four entries of [GPSInfo], when all are there. *)
Definition gps_entries (gps_info : gps_dict)
  : option (list exif_number * string * list exif_number * string) :=
  match GPSLatitude gps_info, GPSLatitudeRef gps_info,
        GPSLongitude gps_info, GPSLongitudeRef gps_info with
  | Some lat, Some lat_ref, Some lon, Some lon_ref =>
      Some (lat, lat_ref, lon, lon_ref)
  | _, _, _, _ => None
  end.

(** The body of the [try] of [extract_metadata], from [result = {...}] on. *)
Definition metadata_of (exif_data : exif_dict) : result metadata :=
  let result : pydict :=
    <["latitude" := VNone]> (<["longitude" := VNone]>
      (<["datetime" := VNone]> (<["source" := VStr "None"]> ∅))) in
  if exif_empty exif_data then mret {| has_exif := false; entries := result |}
  else
    let result :=
      match DateTimeOriginal exif_data with
      | Some date_str => <["datetime" := VStr (iso_date_str date_str)]> result
      | None => result
      end in
    match GPSInfo exif_data ≫= gps_entries with
    | Some (lat_dms, lat_ref, lon_dms, lon_ref) =>
        lat ← _get_decimal_from_dms lat_dms lat_ref;
        lon ← _get_decimal_from_dms lon_dms lon_ref;
        mret {| has_exif := true;
                entries := <["source" := VStr "EXIF"]>
                             (<["longitude" := VFloat lon]>
                                (<["latitude" := VFloat lat]> result)) |}
    | None => mret {| has_exif := true; entries := result |}
    end.

(** ** Stand-ins for the third-party calls

    The third-party calls are parameters of the development (section [Core]
    below). These are concrete implementations for the examples to run
    with; no theorem depends on them. *)

Module Sample.

Definition digit (c : ascii) : option Z :=
  let n := Z.of_N (N_of_ascii c) in
  if (48 <=? n) && (n <=? 57) then Some (n - 48) else None.

Fixpoint digits (acc : Z) (l : list ascii) : option Z :=
  match l with
  | [] => Some acc
  | c :: l => d ← digit c; digits (10 * acc + d) l
  end.

Definition field (s : string) (start len : nat) : option Z :=
  digits 0 (list_ascii_of_string (String.substring start len s)).

Definition is_leap (y : Z) : bool :=
  (y mod 4 =? 0) && (negb (y mod 100 =? 0) || (y mod 400 =? 0)).

Definition days_in_month (y m : Z) : Z :=
  if m =? 2 then (if is_leap y then 29 else 28)
  else if (m =? 4) || (m =? 6) || (m =? 9) || (m =? 11) then 30 else 31.

Definition days_before_month (y m : Z) : Z :=
  fold_left (λ acc k, acc + days_in_month y (Z.of_nat k)) (seq 1 (Z.to_nat m - 1)) 0.

(** [date(y, m, d).toordinal()] *)
Definition toordinal (y m d : Z) : Z :=
  let y' := y - 1 in
  y' * 365 + y' / 4 - y' / 100 + y' / 400 + days_before_month y m + d.

(** A parser of the one format [extract_metadata] writes,
    [YYYY-MM-DD HH:MM:SS]; anything else is a [ValueError], as a text
    dateutil cannot read. The result is naive. *)
Definition parse_timestamp (s : string) : result datetime :=
  let sep i c := String.eqb (String.substring i 1 s) c in
  if negb ((String.length s =? 19)%nat
           && sep 4%nat "-" && sep 7%nat "-" && sep 10%nat " "
           && sep 13%nat ":" && sep 16%nat ":")
  then Raise ValueError
  else
    match field s 0 4, field s 5 2, field s 8 2,
          field s 11 2, field s 14 2, field s 17 2 with
    | Some y, Some m, Some d, Some hh, Some mm, Some ss =>
        if (1 <=? y) && (1 <=? m) && (m <=? 12) && (1 <=? d)
           && (d <=? days_in_month y m) && (hh <? 24) && (mm <? 60) && (ss <? 60)
        then Ok {| wall_us := (((toordinal y m d - 1) * 24 + hh) * 60 + mm) * 60000000
                              + ss * 1000000;
                   utcoffset_us := None |}
        else Raise ValueError
    | _, _, _, _, _, _ => Raise ValueError
    end.

(** A flat-map distance, 111 km to the degree: it is 0 between equal
    coordinates and rejects a latitude outside [-90, 90], as geopy does. *)
Definition planar_km (c1 c2 : pyval * pyval) : result float :=
  match c1, c2 with
  | (VFloat lat1, VFloat lon1), (VFloat lat2, VFloat lon2) =>
      if ((90 <? abs lat1) || (90 <? abs lat2))%float then Raise ValueError
      else
        let dlat := (lat2 - lat1)%float in
        let dlon := (lon2 - lon1)%float in
        Ok (111 * sqrt (dlat * dlat + dlon * dlon))%float
  | _, _ => Raise TypeError
  end.

Fixpoint strip_zeros (l : list ascii) : list ascii :=
  match l with
  | "0"%char :: l' => strip_zeros l'
  | _ => l
  end.

(** The text of a float that carries at most four decimals ([inf], [nan],
    [12.5], [-0.1278]). *)
Definition float_text (x : float) : string :=
  match Prim2SF x with
  | S754_nan => "nan"
  | S754_infinity s => if s then "-inf" else "inf"
  | S754_zero s => if s then "-0.0" else "0.0"
  | S754_finite s m e =>
      let scaled := Z.pos m * 10000 in
      let k := if 0 <=? e then scaled * 2 ^ e
               else round_half_even scaled (2 ^ (- e)) in
      let frac := list_ascii_of_string (pretty (10000 + k mod 10000)) in
      let frac := reverse (strip_zeros (reverse (drop 1 frac))) in
      let frac := match frac with [] => ["0"%char] | _ => frac end in
      (if s then "-" else EmptyString) +:+ pretty (k / 10000) +:+ "."
        +:+ string_of_list_ascii frac
  end.

(** The values CPython's [math] returns at the arguments the statistics
    example evaluates (Paris, London, Berlin). *)
Definition math_sin (x : float) : result float :=
  if (x =? 0x1.7b0121930c600p-6)%float then Ok 0x1.7af87a63b07b3p-6%float
  else if (x =? -0x1.6295796148583p-6)%float then Ok (-0x1.628e636313095p-6)%float
  else if (x =? 0x1.218eca4e14660p-7)%float then Ok 0x1.218dd3576b3a5p-7%float
  else if (x =? 0x1.e3b896793bcbfp-4)%float then Ok 0x1.e298f25b2c6fcp-4%float
  else if (x =? 0)%float then Ok x
  else Raise ValueError.

Definition math_cos (x : float) : result float :=
  if (x =? 0x1.b496366e29f4fp-1)%float then Ok 0x1.50de47a705566p-1%float
  else if (x =? 0x1.cc4648875abafp-1)%float then Ok 0x1.3eacfd47a31a7p-1%float
  else if (x =? 0x1.d552bed9cb5e2p-1)%float then Ok 0x1.378b466a38661p-1%float
  else if (x =? 0)%float then Ok 1%float
  else Raise ValueError.

Definition math_atan2 (y x : float) : float :=
  if ((y =? 0x1.b9b32ea512f5dp-6) && (x =? 0x1.ffd05c1b58577p-1))%float
  then 0x1.b9c0e2447cba0p-6%float
  else if ((y =? 0x1.2b31439143b7bp-4) && (x =? 0x1.fea1dc292ea22p-1))%float
  then 0x1.2b758a1e5ca03p-4%float
  else if ((y =? 0) && (0 <? x))%float then 0%float
  else nan.

(** The squares CPython's [**] returns at the sines above. *)
Definition float_pow (x y : float) : result float :=
  if negb (y =? 2)%float then Raise OverflowError
  else if (x =? 0x1.7af87a63b07b3p-6)%float then Ok 0x1.18815d4de06a7p-11%float
  else if (x =? -0x1.628e636313095p-6)%float then Ok 0x1.eb0e1a106924ap-12%float
  else if (x =? 0x1.218dd3576b3a5p-7)%float then Ok 0x1.478185bddcdf0p-14%float
  else if (x =? 0x1.e298f25b2c6fcp-4)%float then Ok 0x1.c6e2260002851p-7%float
  else if (x =? 0)%float then Ok 0%float
  else Raise OverflowError.

(** An observation as [app.py] builds it. *)
Definition observation (latitude longitude datetime : pyval) : pydict :=
  <["latitude" := latitude]> (<["longitude" := longitude]>
    (<["datetime" := datetime]> (<["landmark_name" := VNone]> ∅))).

(** The observations of the examples. *)
Definition no_gps : pydict := observation VNone VNone VNone.

Definition paris : pydict :=
  observation (VFloat 48.8566) (VFloat 2.3522) (VStr "2024-01-01 23:00:01").
Definition london : pydict :=
  observation (VFloat 51.5074) (VFloat (-0.1278)) (VStr "2024-01-02 08:00:01").
Definition berlin : pydict :=
  observation (VFloat 52.52) (VFloat 13.405) (VStr "2024-01-03 04:00:01").

(** On the prime meridian. *)
Definition greenwich : pydict :=
  observation (VFloat 51.4779) (VFloat 0) (VStr "2024-01-01 12:00:00").

(** Coordinates, and a timestamp that is no date. *)
Definition garbled : pydict :=
  observation (VFloat 48.8566) (VFloat 2.3522) (VStr "yesterday").

(** Two points a tenth of a degree and one second apart. *)
Definition origin : pydict :=
  observation (VFloat 10) (VFloat 10) (VStr "2024-01-01 00:00:00").
Definition one_second_later : pydict :=
  observation (VFloat 10) (VFloat 10.1) (VStr "2024-01-01 00:00:01").

(** 3996 s after [origin] and, for [planar_km], 1110.00444 km away: an
    exact speed of 1000.004 km/h. *)
Definition arrival : pydict :=
  observation (VFloat 20.00004) (VFloat 10) (VStr "2024-01-01 01:06:36").

(** The text of an exception, as CPython words it. *)
Definition exception_text (e : exn) : string :=
  match e with
  | KeyError => "'latitude'"
  | TypeError => "float() argument must be a string or a real number, not 'tuple'"
  | ValueError => "math domain error"
  | IndexError => "tuple index out of range"
  | ZeroDivisionError => "float division by zero"
  | OverflowError => "(34, 'Numerical result out of range')"
  end.

(** A timestamp at night, and no coordinates. *)
Definition night_no_gps : pydict :=
  observation VNone VNone (VStr "2024-01-01 23:00:01").

(** Coordinates without a timestamp. *)
Definition undated_paris : pydict :=
  observation (VFloat 48.8566) (VFloat 2.3522) VNone.
Definition undated_london : pydict :=
  observation (VFloat 51.5074) (VFloat (-0.1278)) VNone.

(** A coordinate in degrees, minutes and seconds, as tuples. *)
Definition dms_51_30_26 : list exif_number :=
  [Rational 51 1; Rational 30 1; Rational 2664 100].

(** The EXIF data of three images: Paris and London with their positions
    in decimal degrees, and one without position. *)
Definition paris_exif : exif_dict :=
  {| DateTimeOriginal := Some "2024:01:01 23:00:01";
     GPSInfo := Some {| GPSLatitude := Some [Number 48.8566; Number 0; Number 0];
                        GPSLatitudeRef := Some "N";
                        GPSLongitude := Some [Number 2.3522; Number 0; Number 0];
                        GPSLongitudeRef := Some "E" |};
     other_tags := true |}.
Definition london_exif : exif_dict :=
  {| DateTimeOriginal := Some "2024:01:02 08:00:01";
     GPSInfo := Some {| GPSLatitude := Some [Number 51.5074; Number 0; Number 0];
                        GPSLatitudeRef := Some "N";
                        GPSLongitude := Some [Number 0.1278; Number 0; Number 0];
                        GPSLongitudeRef := Some "W" |};
     other_tags := true |}.
Definition no_gps_exif : exif_dict :=
  {| DateTimeOriginal := Some "2024:01:01 10:00:00";
     GPSInfo := None;
     other_tags := true |}.

(** A point as [get_analytics] builds it. *)
Definition exif_point (latitude longitude datetime : pyval) : pydict :=
  <["datetime" := datetime]> (<["latitude" := latitude]>
    (<["longitude" := longitude]> (<["source" := VStr "EXIF"]>
      (<["landmark_name" := VNone]> ∅)))).
Definition paris_point : pydict :=
  exif_point (VFloat 48.8566) (VFloat 2.3522) (VStr "2024-01-01 23:00:01").
Definition london_point : pydict :=
  exif_point (VFloat 51.5074) (VFloat (-0.1278)) (VStr "2024-01-02 08:00:01").

End Sample.

(** ** The third-party calls *)

Section Core.

(** [geodesic(coord1, coord2).kilometers] of geopy, each coordinate a
    [(latitude, longitude)] tuple; it raises on a coordinate it rejects. *)
Variable geodesic_km : pyval * pyval → pyval * pyval → result float.

(** [dateutil.parser.parse] on a string. *)
Variable parse_str : string → result datetime.

(** The text of a float in an f-string ([format(x)]). *)
Variable float_str : float → string.

(** [math.sin] and [math.cos] (they raise on an infinity), [math.atan2]. *)
Variable math_sin math_cos : float → result float.
Variable math_atan2 : float → float → float.

(** [x ** y] on two floats: the [pow] of the C library, which is not always
    the nearest float to the power, and an exception where CPython raises
    one (a result out of range, a zero raised to a negative power). *)
Variable float_pow : float → float → result float.

(** [dateutil.parser.parse(v)]: only a string is parsed. *)
Definition dateutil_parse (v : pyval) : result datetime :=
  match v with
  | VStr s => parse_str s
  | _ => Raise TypeError
  end.

(** ** backend/analyzer.py *)

Record metrics : Set :=
  { distance_km : float; time_diff_hours : float; speed_kmh : float }.

(** What [calculate_velocity] returns: the three metrics, or the
    dictionary [{"error": str(e)}]. *)
Inductive velocity : Set :=
  | Velocity (m : metrics)
  | VelocityError (e : exn).

(** The values of [calculate_velocity] before they are rounded. *)
Definition raw_velocity (p1 p2 : pydict) : result metrics :=
  lat1 ← getitem p1 "latitude"; lon1 ← getitem p1 "longitude";
  lat2 ← getitem p2 "latitude"; lon2 ← getitem p2 "longitude";
  distance_km ← geodesic_km (lat1, lon1) (lat2, lon2);
  s1 ← getitem p1 "datetime"; t1 ← dateutil_parse s1;
  s2 ← getitem p2 "datetime"; t2 ← dateutil_parse s2;
  delta ← dt_sub t2 t1;
  let time_diff_hours := (abs (total_seconds delta) / 3600)%float in
  let speed_kmh :=
    if (time_diff_hours =? 0)%float then infinity
    else (distance_km / time_diff_hours)%float in
  mret {| distance_km := distance_km;
          time_diff_hours := time_diff_hours;
          speed_kmh := speed_kmh |}.

Definition round_metrics (m : metrics) : metrics :=
  {| distance_km := py_round (distance_km m) 2;
     time_diff_hours := py_round (time_diff_hours m) 2;
     speed_kmh := py_round (speed_kmh m) 2 |}.

Definition calculate_velocity (p1 p2 : pydict) : velocity :=
  match raw_velocity p1 p2 with
  | Ok m => Velocity (round_metrics m)
  | Raise e => VelocityError e
  end.

Record analysis : Type :=
  { point : pydict;
    flagged : bool;
    reason : option string;
    movement_metrics : option metrics }.

(** What [analyze_timeline] returns: the timeline with the number of points
    analysed, or [{"error": "Date casting error", "timeline": points}]. *)
Inductive timeline_result : Type :=
  | Timeline (chronological_timeline : list analysis) (total_points_analyzed : nat)
  | DateCastingError (timeline : list pydict).

Definition valid_point (p : pydict) : bool :=
  truthy (get p "latitude") && truthy (get p "longitude") && truthy (get p "datetime").

Definition datetime_key (p : pydict) : result datetime :=
  s ← getitem p "datetime"; dateutil_parse s.

(** The entry of a point that is not compared with a predecessor. *)
Definition unflagged (current : pydict) : analysis :=
  {| point := current; flagged := false; reason := None; movement_metrics := None |}.

(** The entry of [current], reached from [previous]. *)
Definition analyse_pair (previous current : pydict) : analysis :=
  match calculate_velocity previous current with
  | VelocityError _ => unflagged current
  | Velocity m =>
      if (1000 <? speed_kmh m)%float then
        {| point := current; flagged := true;
           reason := Some ("Impossible velocity detected: "
                             +:+ float_str (speed_kmh m) +:+ " km/h");
           movement_metrics := Some m |}
      else
        {| point := current; flagged := false; reason := None;
           movement_metrics := Some m |}
  end.

(** The body of the loop [for i in range(len(sorted_points))]. *)
Definition timeline_entry (sorted_points : list pydict) (i : nat) : result analysis :=
  current ← index sorted_points i;
  if (0 <? i)%nat then
    previous ← index sorted_points (i - 1)%nat;
    mret (analyse_pair previous current)
  else mret (unflagged current).

Definition analyze_timeline (points : list pydict) : result timeline_result :=
  let valid_points := List.filter valid_point points in
  match sorted dt_lt datetime_key valid_points with
  | Raise _ => mret (DateCastingError points)
  | Ok sorted_points =>
      timeline ← for_each (timeline_entry sorted_points)
                   (seq 0 (length sorted_points));
      mret (Timeline timeline (length valid_points))
  end.

(** ** backend/risk_module.py *)

Record risk_assessment : Set := { risk_score : Z; risk_level : string }.

(** A loop [for x in l] that updates the state [s], may raise. *)
Fixpoint for_fold {S A} (body : S → A → result S) (s : S) (l : list A) : result S :=
  match l with
  | [] => Ok s
  | a :: l => s' ← body s a; for_fold body s' l
  end.

Definition has_coordinates (loc : pydict) : bool :=
  is_not_None (get loc "latitude") && is_not_None (get loc "longitude").

(** [(d["latitude"], d["longitude"])] *)
Definition coordinates (d : pydict) : result (pyval * pyval) :=
  lat ← getitem d "latitude"; lon ← getitem d "longitude"; mret (lat, lon).

(** The body of [for i in range(len(valid_data) - 1)], on the state
    [(total_distance, max_jump)]. *)
Definition distance_step (valid_data : list pydict) (st : float * float) (i : nat)
  : result (float * float) :=
  a ← index valid_data i; p1 ← coordinates a;
  b ← index valid_data (i + 1)%nat; p2 ← coordinates b;
  dist ← geodesic_km p1 p2;
  let total_distance := (st.1 + dist)%float in
  let max_jump := if (st.2 <? dist)%float then dist else st.2 in
  mret (total_distance, max_jump).

(** [(round(loc["latitude"], 4), round(loc["longitude"], 4))] *)
Definition bucket (loc : pydict) : result (float * float) :=
  lat ← getitem loc "latitude"; rlat ← round_val lat 4;
  lon ← getitem loc "longitude"; rlon ← round_val lon 4;
  mret (rlat, rlon).

(** [==] on two tuples of floats. *)
Definition bucket_eqb (a b : float * float) : bool :=
  (a.1 =? b.1)%float && (a.2 =? b.2)%float.

(** [collections.Counter]: the keys in the order they were first met, each
    with its number of occurrences. *)
Fixpoint count_key (k : float * float) (c : list (float * float * nat))
  : list (float * float * nat) :=
  match c with
  | [] => [(k, 1%nat)]
  | (k', n) :: c' =>
      if bucket_eqb k' k then (k', S n) :: c' else (k', n) :: count_key k c'
  end.

Definition Counter (l : list (float * float)) : list (float * float * nat) :=
  fold_left (λ c k, count_key k c) l [].

(** The body of the night loop: a timestamp that is missing or does not
    parse leaves the count as it is ([except: continue]). *)
Definition night_step (nighttime_count : Z) (loc : pydict) : Z :=
  match datetime_key loc with
  | Ok dt =>
      if (22 <=? hour dt) || (hour dt <? 5) then nighttime_count + 1
      else nighttime_count
  | Raise _ => nighttime_count
  end.

Definition distance_rule (risk_score : Z) (total_distance : float) : Z :=
  if (300 <? total_distance)%float then risk_score + 20 else risk_score.

Definition jump_rule (risk_score : Z) (max_jump : float) : Z :=
  if (200 <? max_jump)%float then risk_score + 15 else risk_score.

Definition repeat_rule (risk_score : Z) (counts : list (float * float * nat)) : Z :=
  if existsb (λ kc, (3 <? kc.2)%nat) counts then risk_score + 15 else risk_score.

Definition night_rule (risk_score : Z) (nighttime_count : Z) (n : nat) : Z :=
  if (0 <? n)%nat
     && (0.5 <? int_truediv nighttime_count (Z.of_nat n))%float
  then risk_score + 20 else risk_score.

Definition level_of (risk_score : Z) : string :=
  if 40 <=? risk_score then "High"
  else if 20 <=? risk_score then "Medium"
  else "Low".

(** The score after the first three rules (distance, jump, repeated
    visits), in the order the function applies them. *)
Definition score_before_night (locations_data : list pydict) : result Z :=
  let risk_score := 0 in
  sorted_data ←
    try_except
      (sorted dt_lt datetime_key
         (List.filter (λ loc, truthy (get loc "datetime")) locations_data))
      (λ _, mret locations_data);
  let valid_data := List.filter has_coordinates sorted_data in
  st ← for_fold (distance_step valid_data) (0%float, 0%float)
         (seq 0 (length valid_data - 1));
  let risk_score := distance_rule risk_score st.1 in
  let risk_score := jump_rule risk_score st.2 in
  coords ← for_each bucket locations_data;
  let counts := Counter coords in
  mret (repeat_rule risk_score counts).

Definition calculate_risk_score (locations_data : list pydict) : result risk_assessment :=
  match locations_data with
  | [] => mret {| risk_score := 0; risk_level := "Low" |}
  | _ =>
      risk_score ← score_before_night locations_data;
      let nighttime_count := fold_left night_step locations_data 0 in
      let risk_score := night_rule risk_score nighttime_count (length locations_data) in
      mret {| risk_score := risk_score; risk_level := level_of risk_score |}
  end.

(** ** backend/stats_module.py *)

Record travel_statistics : Set :=
  { total_distance_km : float;
    unique_locations_count : nat;
    most_visited_location : string;
    average_movement_km : float;
    total_movements : nat }.

(** [float(n)] for an [int]. *)
Definition float_of_int (n : Z) : float := int_truediv n 1.

(** [math.pi], the binary64 nearest to pi. *)
Definition math_pi : float := 0x1.921fb54442d18p+1%float.

(** [math.radians] *)
Definition math_radians (v : pyval) : result float :=
  match v with
  | VFloat x => Ok (x * (math_pi / 180))%float
  | _ => Raise TypeError
  end.

(** [math.sqrt] *)
Definition math_sqrt (x : float) : result float :=
  if (x <? 0)%float then Raise ValueError else Ok (sqrt x).

(** The nested [haversine]; its guard [if not p1 or not p2] never fires on
    a pair. The operands of [a] are evaluated from left to right, the
    exponent [2] being the float [2.0] for [**]. *)
Definition haversine (p1 p2 : pyval * pyval) : result float :=
  let R := 6371%float in
  lat1 ← math_radians p1.1; lon1 ← math_radians p1.2;
  lat2 ← math_radians p2.1; lon2 ← math_radians p2.2;
  let dlat := (lat2 - lat1)%float in
  let dlon := (lon2 - lon1)%float in
  s1 ← math_sin (dlat / 2)%float; q1 ← float_pow s1 2;
  c1 ← math_cos lat1; c2 ← math_cos lat2;
  s2 ← math_sin (dlon / 2)%float; q2 ← float_pow s2 2;
  let a := (q1 + c1 * c2 * q2)%float in
  r1 ← math_sqrt a; r2 ← math_sqrt (1 - a)%float;
  let c := (2 * math_atan2 r1 r2)%float in
  mret (R * c)%float.

(** The body of [for i in range(len(valid_points) - 1)], on the state
    [(total_distance, movements)]. *)
Definition movement_step (valid_points : list pydict) (st : float * nat) (i : nat)
  : result (float * nat) :=
  a ← index valid_points i; p1 ← coordinates a;
  b ← index valid_points (i + 1)%nat; p2 ← coordinates b;
  dist ← haversine p1 p2;
  mret ((st.1 + dist)%float, S st.2).

(** The loop over the points with coordinates: the sum of the distances
    between neighbours, not rounded, and the number of distances summed. *)
Definition distance_sum (locations_data : list pydict) : result (float * nat) :=
  let valid_points := List.filter has_coordinates locations_data in
  for_fold (movement_step valid_points) (0%float, 0%nat)
    (seq 0 (length valid_points - 1)).

(** [counts.most_common(1)[0]] on a non-empty counter: the first key with
    the largest count. *)
Fixpoint most_common (best : float * float * nat) (c : list (float * float * nat))
  : float * float * nat :=
  match c with
  | [] => best
  | kc :: c' => most_common (if (best.2 <? kc.2)%nat then kc else best) c'
  end.

(** The search [for loc in locations_data] for a landmark name, left by
    [break] at the first non-empty name of the winning bucket. *)
Fixpoint find_landmark (top_coord : float * float) (landmark_name : pyval)
  (l : list pydict) : result pyval :=
  match l with
  | [] => Ok landmark_name
  | loc :: l' =>
      lat ← getitem loc "latitude"; rlat ← round_val lat 4;
      if (rlat =? top_coord.1)%float then
        lon ← getitem loc "longitude"; rlon ← round_val lon 4;
        if (rlon =? top_coord.2)%float then
          let landmark_name := get loc "landmark_name" in
          if truthy landmark_name then Ok landmark_name
          else find_landmark top_coord landmark_name l'
        else find_landmark top_coord landmark_name l'
      else find_landmark top_coord landmark_name l'
  end.

(** The text of an object in an f-string. *)
Definition format_val (v : pyval) : string :=
  match v with
  | VNone => "None"
  | VFloat x => float_str x
  | VStr s => s
  end.

Definition most_visited (locations_data : list pydict)
  (counts : list (float * float * nat)) : result string :=
  match counts with
  | [] => mret "None"
  | kc :: c' =>
      let '(top_coord, count) := most_common kc c' in
      landmark_name ← find_landmark top_coord VNone locations_data;
      let loc_str :=
        if truthy landmark_name then format_val landmark_name
        else "Lat: " +:+ float_str top_coord.1 +:+ ", Lng: " +:+ float_str top_coord.2 in
      if (1 <? count)%nat then mret (loc_str +:+ " (" +:+ pretty count +:+ " visits)")
      else mret loc_str
  end.

(** [total_distance / movements if movements > 0 else 0] *)
Definition avg_movement (total_distance : float) (movements : nat) : float :=
  if (0 <? movements)%nat
  then (total_distance / float_of_int (Z.of_nat movements))%float
  else 0%float.

Definition generate_travel_statistics (locations_data : list pydict)
  : result travel_statistics :=
  match locations_data with
  | [] =>
      mret {| total_distance_km := 0; unique_locations_count := 0;
              most_visited_location := "None"; average_movement_km := 0;
              total_movements := 0 |}
  | _ =>
      let valid_points := List.filter has_coordinates locations_data in
      st ← distance_sum locations_data;
      let '(total_distance, movements) := st in
      coords ← for_each bucket valid_points;
      let counts := Counter coords in
      most_visited ← most_visited locations_data counts;
      mret {| total_distance_km := py_round total_distance 2;
              unique_locations_count := length counts;
              most_visited_location := most_visited;
              average_movement_km := py_round (avg_movement total_distance movements) 2;
              total_movements := movements |}
  end.

(** ** Definitions the statements use *)

(** The loop of [analyze_timeline] in closed form: every point but the first
    is analysed against the one before it. *)
Fixpoint walk (previous : option pydict) (l : list pydict) : list analysis :=
  match l with
  | [] => []
  | current :: l' =>
      match previous with
      | None => unflagged current
      | Some p => analyse_pair p current
      end :: walk (Some current) l'
  end.

(** Coordinate-valid, in the words of the specification: latitude and
    longitude both present and numeric. *)
Definition is_number (v : pyval) : bool :=
  match v with VFloat _ => true | _ => false end.

Definition coordinate_valid (p : pydict) : bool :=
  is_number (get p "latitude") && is_number (get p "longitude").

(** Time-valid, in the words of the specification: the timestamp is present
    and parses. *)
Definition time_valid (p : pydict) : bool :=
  match datetime_key p with Ok _ => true | Raise _ => false end.

(** The point's timestamp is at the instant [t]. *)
Definition at_instant (t : Z) (p : pydict) : bool :=
  match datetime_key p with Ok d => instant d =? t | Raise _ => false end.

(** [p] is not later than [q], both timestamps being read the same way. *)
Definition timestamp_le (p q : pydict) : Prop :=
  ∃ dp dq, datetime_key p = Ok dp ∧ datetime_key q = Ok dq
           ∧ comparable dp dq = true ∧ instant dp ≤ instant dq.

(** A coordinate that is absent, or a number other than zero. *)
Definition absent_or_nonzero (v : pyval) : bool :=
  match v with
  | VNone => true
  | VFloat x => negb (x =? 0)%float
  | VStr _ => false
  end.

(** The night hours of the risk rule, [22,24) and [0,5). *)
Definition night_hour (h : Z) : bool :=
  ((22 <=? h) && (h <? 24)) || ((0 <=? h) && (h <? 5)).

(** The input points with a timestamp that parses to a night hour. *)
Definition night_points (locations_data : list pydict) : list pydict :=
  List.filter
    (λ loc, match datetime_key loc with Ok dt => night_hour (hour dt) | Raise _ => false end)
    locations_data.

(** The distances between consecutive points, first to last: the terms of
    the sum of the specification. *)
Fixpoint consecutive_distances (l : list pydict) : result (list float) :=
  match l with
  | [] => Ok []
  | a :: l' =>
      match l' with
      | [] => Ok []
      | b :: _ =>
          p1 ← coordinates a; p2 ← coordinates b;
          d ← haversine p1 p2;
          ds ← consecutive_distances l';
          mret (d :: ds)
      end
  end.

(** The sum of floats, added one after the other to 0.0. *)
Definition float_sum (l : list float) : float :=
  fold_left (λ acc d, (acc + d)%float) l 0%float.

(** The number of elements of [l] that [==] finds equal to [k]. *)
Definition occurrences (k : float * float) (l : list (float * float)) : nat :=
  length (List.filter (bucket_eqb k) l).

(** The score after the two distance rules of [calculate_risk_score], the
    first part of [score_before_night]. *)
Definition distance_score (locations_data : list pydict) : result Z :=
  sorted_data ←
    try_except
      (sorted dt_lt datetime_key
         (List.filter (λ loc, truthy (get loc "datetime")) locations_data))
      (λ _, mret locations_data);
  let valid_data := List.filter has_coordinates sorted_data in
  st ← for_fold (distance_step valid_data) (0%float, 0%float)
         (seq 0 (length valid_data - 1));
  mret (jump_rule (distance_rule 0 st.1) st.2).


(** ** backend/extractor.py: [extract_metadata]

    [str(e)] for an exception raised by the conversion of a coordinate. *)
Variable exn_text : exn → string.

Definition error_metadata (message : string) : metadata :=
  {| has_exif := false; entries := {["error" := VStr message]} |}.

Definition extract_metadata (image : exif_outcome) : metadata :=
  match image with
  | DecodeError message => error_metadata message
  | Decoded exif_data =>
      match metadata_of exif_data with
      | Ok result => result
      | Raise e => error_metadata (exn_text e)
      end
  end.

(** ** app.py: [get_analytics]

    [datetime.min] *)
Definition datetime_min : datetime := {| wall_us := 0; utcoffset_us := None |}.

(** The nested [get_date]. *)
Definition get_date (x : pydict) : result datetime :=
  try_except
    (if truthy (get x "datetime")
     then s ← getitem x "datetime"; dateutil_parse s
     else Ok datetime_min)
    (λ _, Ok datetime_min).

(** The point appended for an image, if any. *)
Definition analytics_point (metadata : metadata) : option pydict :=
  let lat := get (entries metadata) "latitude" in
  let lng := get (entries metadata) "longitude" in
  if is_not_None lat && is_not_None lng
  then Some (<["datetime" := get (entries metadata) "datetime"]>
               (<["latitude" := lat]> (<["longitude" := lng]>
                  (<["source" := get (entries metadata) "source"]>
                     (<["landmark_name" := get (entries metadata) "landmark_name"]>
                        ∅)))))
  else None.

(** [extracted_points] after the loop over the image files of the upload
    directory, each given by the outcome of its decoding. *)
Definition analytics_points (images : list exif_outcome) : list pydict :=
  omap (λ image, analytics_point (extract_metadata image)) images.

Inductive analytics : Type :=
  | NoData
  | Analytics (risk : risk_assessment) (stats : travel_statistics)
      (points : list pydict).

Definition get_analytics (images : list exif_outcome) : result analytics :=
  match analytics_points images with
  | [] => mret NoData
  | extracted_points =>
      extracted_points ← sorted dt_lt get_date extracted_points;
      risk_data ← calculate_risk_score extracted_points;
      stats_data ← generate_travel_statistics extracted_points;
      mret (Analytics risk_data stats_data extracted_points)
  end.

(** A tuple whose denominator is zero. *)
Definition zero_denominator (c : exif_number) : bool :=
  match c with
  | Rational _ b => (b =? 0)%float
  | Number _ => false
  end.

(** ** Float comparisons *)

Lemma SFcompare_antisym x y :
  SFcompare y x = CompOpp <$> SFcompare x y.
Proof.
  destruct x as [sx|sx| |sx mx ex], y as [sy|sy| |sy my ey]; simpl;
    try done; try (by destruct sx); try (by destruct sy);
    try (by destruct sx, sy).
  pose proof (Pos.compare_cont_antisym mx my Eq) as Hm. simpl in Hm.
  destruct sx, sy; try done; rewrite (Z.compare_antisym ey ex);
    destruct (ey ?= ex); simpl; try done; rewrite <- Hm;
    by destruct (Pos.compare_cont Eq mx my).
Qed.

(** [x <= y] excludes [y < x]. *)
Lemma leb_not_ltb (x y : float) :
  (x <=? y)%float = true → (y <? x)%float = false.
Proof.
  rewrite leb_spec, ltb_spec. unfold SFleb, SFltb.
  rewrite (SFcompare_antisym (Prim2SF x) (Prim2SF y)).
  by destruct (SFcompare (Prim2SF x) (Prim2SF y)) as [[]|].
Qed.

(** On lists of up to 200 points the float quotient of two counts is above
    0.5 exactly when the exact quotient is: no rounding interferes. *)
Lemma truediv_above_half (c n : nat) :
  (0 < n ≤ 200)%nat → (c ≤ n)%nat →
  (0.5 <? int_truediv (Z.of_nat c) (Z.of_nat n))%float
  = (Z.of_nat n <? 2 * Z.of_nat c).
Proof.
  intros Hn Hc.
  assert (forallb
            (λ n, forallb
                    (λ c, Bool.eqb
                            (0.5 <? int_truediv (Z.of_nat c) (Z.of_nat n))%float
                            (Z.of_nat n <? 2 * Z.of_nat c))
                    (seq 0 (S n)))
            (seq 1 200) = true) as Hall by (vm_compute; reflexivity).
  rewrite forallb_forall in Hall.
  specialize (Hall n ltac:(apply in_seq; lia)).
  rewrite forallb_forall in Hall.
  specialize (Hall c ltac:(apply in_seq; lia)).
  by apply Bool.eqb_prop in Hall.
Qed.

(** ** The result monad *)

Lemma for_each_length {A B} (f : A → result B) l bs :
  for_each f l = Ok bs → length bs = length l.
Proof.
  revert bs. induction l as [|a l IH]; intros bs; simpl.
  - intros [= <-]. reflexivity.
  - destruct (f a) as [b|]; simpl; [|discriminate].
    destruct (for_each f l) as [bs'|]; simpl; [|discriminate].
    intros [= <-]. simpl. f_equal. by apply IH.
Qed.

Lemma for_each_Forall2 {A B} (f : A → result B) l bs :
  for_each f l = Ok bs ↔ Forall2 (λ a b, f a = Ok b) l bs.
Proof.
  revert bs. induction l as [|a l IH]; intros bs; simpl.
  - split; [intros [= <-]; constructor | by inversion 1].
  - split.
    + destruct (f a) as [b|] eqn:Hb; simpl; [|discriminate].
      destruct (for_each f l) as [bs'|] eqn:Hl; simpl; [|discriminate].
      intros [= <-]. constructor; [done|]. by apply IH.
    + inversion 1 as [|? b ? bs' Hb Hl]; subst. rewrite Hb. simpl.
      apply IH in Hl. rewrite Hl. reflexivity.
Qed.

Lemma index_app_middle {A} (pre suf : list A) x :
  index (pre ++ x :: suf) (length pre) = Ok x.
Proof. unfold index. by rewrite list_lookup_middle. Qed.

(** ** [sorted] on timestamps *)

Lemma comparable_sym a b : comparable a b = true → comparable b a = true.
Proof. unfold comparable. by destruct (utcoffset_us a), (utcoffset_us b). Qed.

Lemma comparable_trans a b c :
  comparable a b = true → comparable b c = true → comparable a c = true.
Proof.
  unfold comparable.
  by destruct (utcoffset_us a), (utcoffset_us b), (utcoffset_us c).
Qed.

Lemma dt_lt_Ok a b r :
  dt_lt a b = Ok r → comparable a b = true ∧ r = (instant a <? instant b).
Proof. unfold dt_lt. destruct (comparable a b); [by intros [= <-]|discriminate]. Qed.

Lemma insert_sorted_Ok {A} (x : datetime * A) l l' :
  insert_sorted dt_lt x l = Ok l' →
  ∃ l1 l2, l = l1 ++ l2 ∧ l' = l1 ++ x :: l2
    ∧ Forall (λ y, comparable y.1 x.1 = true ∧ instant y.1 < instant x.1) l1
    ∧ match l2 with [] => True | y :: _ => keyed_le x y end.
Proof.
  revert l'. induction l as [|y l IH]; intros l'; simpl.
  - intros [= <-]. by exists [], [].
  - destruct (dt_lt y.1 x.1) as [b|] eqn:Hlt; simpl; [|discriminate].
    apply dt_lt_Ok in Hlt as [Hc ->].
    destruct (instant y.1 <? instant x.1) eqn:Hcmp.
    + destruct (insert_sorted dt_lt x l) as [l''|]; simpl; [|discriminate].
      intros [= <-]. destruct (IH l'' eq_refl) as (l1 & l2 & -> & -> & Hl1 & Hl2).
      exists (y :: l1), l2. repeat split; [|done].
      constructor; [|done]. split; [done|]. by apply Z.ltb_lt.
    + intros [= <-]. exists [], (y :: l). repeat split; [constructor|..].
      * by apply comparable_sym.
      * by apply Z.ltb_ge.
Qed.

Lemma insert_sorted_sorted {A} (x : datetime * A) l l' :
  StronglySorted keyed_le l → insert_sorted dt_lt x l = Ok l' →
  StronglySorted keyed_le l'.
Proof.
  intros Hs (l1 & l2 & -> & -> & Hl1 & Hl2)%insert_sorted_Ok.
  apply StronglySorted_app in Hs as (H12 & Hs1 & Hs2).
  apply StronglySorted_app. split; [|split; [done|]].
  - intros a b Ha [->|Hb]%elem_of_cons; [|by apply H12].
    rewrite Forall_forall in Hl1. destruct (Hl1 a Ha). split; [done|lia].
  - apply StronglySorted_cons. split; [|done].
    destruct l2 as [|y l2]; [constructor|].
    apply StronglySorted_cons in Hs2 as [Hy _].
    constructor; [done|].
    destruct Hl2 as [Hc Hle]. eapply Forall_impl; [exact Hy|].
    intros z [Hc' Hle']. split; [by eapply comparable_trans|lia].
Qed.

Lemma insert_sorted_instant {A} (t : Z) (x : datetime * A) l l' :
  insert_sorted dt_lt x l = Ok l' →
  List.filter (λ y, instant y.1 =? t) l'
  = List.filter (λ y, instant y.1 =? t) (x :: l).
Proof.
  intros (l1 & l2 & -> & -> & Hl1 & _)%insert_sorted_Ok.
  rewrite !List.filter_app. simpl. rewrite List.filter_app.
  destruct (instant x.1 =? t) eqn:Hx; [|done].
  apply Z.eqb_eq in Hx.
  replace (List.filter (λ y, instant y.1 =? t) l1) with (@nil (datetime * A));
    [done|].
  symmetry. induction Hl1 as [|y l1 [_ Hy] _ IH]; [done|]. simpl.
  by replace (instant y.1 =? t) with false by (symmetry; apply Z.eqb_neq; lia).
Qed.

Lemma insert_sorted_Permutation {A} (x : datetime * A) l l' :
  insert_sorted dt_lt x l = Ok l' → l' ≡ₚ x :: l.
Proof.
  intros (l1 & l2 & -> & -> & _)%insert_sorted_Ok.
  by rewrite Permutation_middle.
Qed.

Lemma sort_keyed_Ok {A} (l s : list (datetime * A)) :
  sort_keyed dt_lt l = Ok s →
  s ≡ₚ l ∧ StronglySorted keyed_le s
  ∧ ∀ t, List.filter (λ y, instant y.1 =? t) s
         = List.filter (λ y, instant y.1 =? t) l.
Proof.
  revert s. induction l as [|x l IH]; intros s; simpl.
  - intros [= <-]. repeat split; constructor.
  - destruct (sort_keyed dt_lt l) as [s0|]; simpl; [|discriminate].
    destruct (IH s0 eq_refl) as (Hp & Hs & Hf). intros Hins. repeat split.
    + rewrite (insert_sorted_Permutation _ _ _ Hins). by constructor.
    + by eapply insert_sorted_sorted.
    + intros t. rewrite (insert_sorted_instant t _ _ _ Hins). simpl.
      by rewrite Hf.
Qed.

Lemma for_each_Raise {A B} (f : A → result B) l a e :
  a ∈ l → f a = Raise e → ∃ e', for_each f l = Raise e'.
Proof.
  intros Hin Ha. induction Hin as [a l|a b l _ IH]; simpl.
  - rewrite Ha. by eexists.
  - destruct (f b); [|by eexists]. destruct (IH Ha) as [e' ->]. by eexists.
Qed.

Lemma keying_Ok l keyed :
  for_each (λ a, k ← datetime_key a; mret (k, a)) l = Ok keyed →
  keyed.*2 = l ∧ Forall (λ x, datetime_key x.2 = Ok x.1) keyed.
Proof.
  revert keyed. induction l as [|a l IH]; intros keyed; simpl.
  - intros [= <-]. by split.
  - destruct (datetime_key a) as [k|] eqn:Hk; simpl; [|discriminate].
    destruct (for_each _ l) as [keyed'|]; simpl; [|discriminate].
    intros [= <-]. destruct (IH keyed' eq_refl) as [<- Hall].
    split; [done|]. by constructor.
Qed.

Lemma keyed_sorted_timestamps (s : list (datetime * pydict)) :
  Forall (λ x, datetime_key x.2 = Ok x.1) s →
  StronglySorted keyed_le s → StronglySorted timestamp_le s.*2.
Proof.
  induction 1 as [|x s Hx Hall IH]; [constructor|].
  intros [Hle Hs]%StronglySorted_cons. simpl.
  apply StronglySorted_cons. split; [|by apply IH].
  apply Forall_fmap. rewrite Forall_forall in Hle, Hall.
  apply Forall_forall. intros y Hy. destruct (Hle y Hy) as [Hc Hi].
  exists x.1, y.1. by rewrite Hx, (Hall y Hy).
Qed.

Lemma keyed_filter_instant t (s : list (datetime * pydict)) :
  Forall (λ x, datetime_key x.2 = Ok x.1) s →
  List.filter (at_instant t) s.*2
  = (List.filter (λ y, instant y.1 =? t) s).*2.
Proof.
  induction 1 as [|x s Hx Hall IH]; [done|].
  rewrite fmap_cons. cbn [List.filter]. unfold at_instant at 1. rewrite Hx.
  destruct (instant x.1 =? t); [rewrite fmap_cons|]; by rewrite IH.
Qed.

(** What a successful [sorted(..., key=parse)] returns: the same points, in
    ascending order of timestamp, equal instants in their input order; and
    every timestamp parsed. *)
Lemma sorted_Ok l sp :
  sorted dt_lt datetime_key l = Ok sp →
  sp ≡ₚ l ∧ StronglySorted timestamp_le sp
  ∧ (∀ t, List.filter (at_instant t) sp = List.filter (at_instant t) l)
  ∧ Forall (λ p, time_valid p = true) l.
Proof.
  unfold sorted.
  destruct (for_each _ l) as [keyed|] eqn:Hkeyed; simpl; [|discriminate].
  destruct (sort_keyed dt_lt keyed) as [s|] eqn:Hsort; simpl; [|discriminate].
  intros [= <-].
  apply keying_Ok in Hkeyed as [<- Hall].
  apply sort_keyed_Ok in Hsort as (Hp & Hs & Hf).
  assert (Forall (λ x, datetime_key x.2 = Ok x.1) s) as Hall'
    by (by rewrite Hp).
  split; [by rewrite Hp|]. split; [by apply keyed_sorted_timestamps|].
  split.
  - intros t. by rewrite !keyed_filter_instant, Hf.
  - apply Forall_fmap. eapply Forall_impl; [exact Hall|].
    intros x Hx. simpl. unfold time_valid. by rewrite Hx.
Qed.

Lemma sorted_Raise l p e :
  p ∈ l → datetime_key p = Raise e →
  ∃ e', sorted dt_lt datetime_key l = Raise e'.
Proof.
  intros Hin Hp. unfold sorted.
  destruct (for_each_Raise (λ a, k ← datetime_key a; mret (k, a)) l p e Hin)
    as [e' ->]; [by rewrite Hp|]. by eexists.
Qed.

(** ** The timeline loop *)

Lemma timeline_entry_middle pre current suf :
  timeline_entry (pre ++ current :: suf) (length pre)
  = Ok (match last pre with
        | None => unflagged current
        | Some p => analyse_pair p current
        end).
Proof.
  unfold timeline_entry. rewrite index_app_middle. simpl.
  destruct pre as [|p0 pre0] using rev_ind; [reflexivity|].
  rewrite last_snoc, length_app. simpl.
  replace (0 <? length pre0 + 1)%nat with true
    by (symmetry; apply Nat.ltb_lt; lia).
  replace (length pre0 + 1 - 1)%nat with (length pre0) by lia.
  rewrite <- app_assoc. simpl. rewrite index_app_middle. reflexivity.
Qed.

Lemma timeline_loop_from pre suf :
  for_each (timeline_entry (pre ++ suf)) (seq (length pre) (length suf))
  = Ok (walk (last pre) suf).
Proof.
  revert pre. induction suf as [|current suf IH]; intros pre; [reflexivity|].
  simpl. rewrite timeline_entry_middle. simpl.
  specialize (IH (pre ++ [current])).
  rewrite <- app_assoc, length_app, last_snoc in IH. simpl in IH.
  replace (length pre + 1)%nat with (S (length pre)) in IH by lia.
  rewrite IH. reflexivity.
Qed.

Lemma timeline_loop sorted_points :
  for_each (timeline_entry sorted_points) (seq 0 (length sorted_points))
  = Ok (walk None sorted_points).
Proof. apply (timeline_loop_from [] sorted_points). Qed.

(** [analyze_timeline] in closed form. *)
Lemma analyze_timeline_unfold points :
  analyze_timeline points
  = Ok match sorted dt_lt datetime_key (List.filter valid_point points) with
       | Raise _ => DateCastingError points
       | Ok sorted_points =>
           Timeline (walk None sorted_points)
             (length (List.filter valid_point points))
       end.
Proof.
  unfold analyze_timeline.
  destruct (sorted dt_lt datetime_key _) as [sp|e]; [|reflexivity].
  rewrite timeline_loop. reflexivity.
Qed.

(** [analyze_timeline] returns on every input: no exception reaches the
    caller. *)
Lemma analyze_timeline_total points : ∃ r, analyze_timeline points = Ok r.
Proof. rewrite analyze_timeline_unfold. by eexists. Qed.

Lemma analyze_timeline_sort_failure points e :
  sorted dt_lt datetime_key (List.filter valid_point points) = Raise e →
  analyze_timeline points = Ok (DateCastingError points).
Proof. intros H. by rewrite analyze_timeline_unfold, H. Qed.

Lemma analyze_timeline_Timeline points tl n :
  analyze_timeline points = Ok (Timeline tl n) →
  ∃ sorted_points,
    sorted dt_lt datetime_key (List.filter valid_point points) = Ok sorted_points
    ∧ tl = walk None sorted_points
    ∧ n = length (List.filter valid_point points).
Proof.
  rewrite analyze_timeline_unfold.
  destruct (sorted dt_lt datetime_key _) as [sp|]; [|discriminate].
  intros [= <- <-]. by exists sp.
Qed.

(** C7. If a point that passes the filter of [analyze_timeline] has a
    timestamp that cannot be parsed, so that the sort step fails, the
    function returns (it does not raise) the error result, which carries the
    original input list, unsorted and unfiltered, and no timeline. *)
Theorem analyze_timeline_unparseable points p e :
  p ∈ points → valid_point p = true → datetime_key p = Raise e →
  analyze_timeline points = Ok (DateCastingError points).
Proof.
  intros Hin Hvalid Hkey.
  destruct (sorted_Raise (List.filter valid_point points) p e) as [e' He'];
    [|done|by eapply analyze_timeline_sort_failure].
  apply list_elem_of_In, filter_In. split; [by apply list_elem_of_In|done].
Qed.

(** C9. The first entry of every non-empty timeline that [analyze_timeline]
    returns has no movement metrics and is not flagged. *)
Theorem first_entry_unflagged points entry tl n :
  analyze_timeline points = Ok (Timeline (entry :: tl) n) →
  movement_metrics entry = None ∧ flagged entry = false.
Proof.
  intros (sp & _ & Hwalk & _)%analyze_timeline_Timeline.
  destruct sp as [|p sp]; simpl in Hwalk; [discriminate|].
  by injection Hwalk as -> _.
Qed.

Lemma point_analyse_pair previous current :
  point (analyse_pair previous current) = current.
Proof.
  unfold analyse_pair. destruct (calculate_velocity previous current) as [m|]; [|done].
  by destruct (1000 <? speed_kmh m)%float.
Qed.

Lemma walk_points previous l : point <$> walk previous l = l.
Proof.
  revert previous. induction l as [|c l IH]; intros previous; [done|].
  simpl. rewrite IH. f_equal. destruct previous; [apply point_analyse_pair|done].
Qed.

(** Consecutive entries of the timeline: the later one is the analysis of
    its own point against the point of the earlier one. *)
Lemma walk_consecutive l previous i a b :
  walk previous l !! i = Some a → walk previous l !! S i = Some b →
  b = analyse_pair (point a) (point b).
Proof.
  revert previous i. induction l as [|c l IH]; intros previous i; [done|].
  destruct i as [|i]; simpl.
  - intros [= <-]. destruct l as [|c' l]; [done|]. simpl. intros [= <-].
    rewrite point_analyse_pair.
    by destruct previous; [rewrite point_analyse_pair|].
  - apply IH.
Qed.

Lemma timeline_consecutive points tl n i previous current :
  analyze_timeline points = Ok (Timeline tl n) →
  tl !! i = Some previous → tl !! S i = Some current →
  current = analyse_pair (point previous) (point current).
Proof.
  intros (sp & _ & -> & _)%analyze_timeline_Timeline. apply walk_consecutive.
Qed.

Lemma time_valid_truthy p :
  (∀ d, parse_str EmptyString ≠ Ok d) →
  time_valid p = true → truthy (get p "datetime") = true.
Proof.
  intros Hempty. unfold time_valid, datetime_key, getitem, get.
  destruct (p !! "datetime") as [[|x|s]|]; simpl; try done.
  destruct (String.eqb_spec s EmptyString); [subst|done].
  destruct (parse_str EmptyString) as [d|]; [|done]. by destruct (Hempty d).
Qed.

Lemma truthy_coordinate v :
  absent_or_nonzero v = true → truthy v = is_number v.
Proof. by destruct v. Qed.

(** C3, as amended. When no coordinate of the input is zero or a
    non-number, the empty text does not parse, and the sort step succeeds
    (the function returns a timeline), the timeline holds exactly one entry
    for each input point that is coordinate-valid and time-valid, in
    ascending order of parsed timestamp, and points at the same instant keep
    their input order. *)
Theorem timeline_is_stable_sort points tl n :
  (∀ d, parse_str EmptyString ≠ Ok d) →
  Forall (λ p, absent_or_nonzero (get p "latitude")
               && absent_or_nonzero (get p "longitude") = true) points →
  analyze_timeline points = Ok (Timeline tl n) →
  point <$> tl ≡ₚ List.filter (λ p, coordinate_valid p && time_valid p) points
  ∧ StronglySorted timestamp_le (point <$> tl)
  ∧ ∀ t, List.filter (at_instant t) (point <$> tl)
         = List.filter (at_instant t)
             (List.filter (λ p, coordinate_valid p && time_valid p) points).
Proof.
  intros Hempty Hcoords (sp & Hsorted & -> & _)%analyze_timeline_Timeline.
  rewrite walk_points.
  apply sorted_Ok in Hsorted as (Hperm & Hsort & Hstable & Hparsed).
  assert (List.filter valid_point points
          = List.filter (λ p, coordinate_valid p && time_valid p) points) as <-;
    [|done].
  apply List.filter_ext_in. intros p Hp.
  rewrite Forall_forall in Hcoords.
  pose proof (Hcoords p (proj2 (list_elem_of_In _ _) Hp)) as [Hlat Hlon]%andb_prop.
  unfold valid_point, coordinate_valid.
  rewrite (truthy_coordinate _ Hlat), (truthy_coordinate _ Hlon).
  destruct (is_number (get p "latitude") && is_number (get p "longitude"))
    eqn:Hnum; [simpl|done].
  destruct (truthy (get p "datetime")) eqn:Htime.
  - symmetry. rewrite Forall_forall in Hparsed. apply Hparsed.
    apply list_elem_of_In, filter_In. split; [done|].
    unfold valid_point.
    rewrite (truthy_coordinate _ Hlat), (truthy_coordinate _ Hlon), Hnum.
    done.
  - destruct (time_valid p) eqn:Hvalid; [|done].
    by rewrite (time_valid_truthy p Hempty Hvalid) in Htime.
Qed.

(** C4. For every consecutive pair of the timeline, the later entry carries
    the metrics of [calculate_velocity] on the pair; it is flagged exactly
    when those metrics exist and their [speed_kmh] is strictly above 1000 (a
    speed of exactly 1000.0 is not flagged); and a flagged entry carries the
    reason "Impossible velocity detected: {speed_kmh} km/h", where
    [speed_kmh] is the speed of the metrics, which is the speed of the pair
    rounded to two decimals. *)
Theorem flag_iff_speed_above_1000 points tl n i previous current :
  analyze_timeline points = Ok (Timeline tl n) →
  tl !! i = Some previous → tl !! S i = Some current →
  movement_metrics current
  = match calculate_velocity (point previous) (point current) with
    | Velocity m => Some m
    | VelocityError _ => None
    end
  ∧ (flagged current = true ↔
     ∃ m, movement_metrics current = Some m ∧ (1000 <? speed_kmh m)%float = true)
  ∧ (∀ m, movement_metrics current = Some m → speed_kmh m = 1000%float →
          flagged current = false)
  ∧ (∀ m, movement_metrics current = Some m → flagged current = true →
          reason current
          = Some ("Impossible velocity detected: "
                    +:+ float_str (speed_kmh m) +:+ " km/h"))
  ∧ (∀ m, movement_metrics current = Some m →
          ∃ raw, raw_velocity (point previous) (point current) = Ok raw
                 ∧ speed_kmh m = py_round (speed_kmh raw) 2).
Proof.
  intros Htl Hprev Hcur.
  rewrite (timeline_consecutive _ _ _ _ _ _ Htl Hprev Hcur).
  rewrite point_analyse_pair. unfold analyse_pair.
  destruct (calculate_velocity (point previous) (point current)) as [m|e]
    eqn:Hvelocity; simpl.
  - assert (∃ raw, raw_velocity (point previous) (point current) = Ok raw
                   ∧ speed_kmh m = py_round (speed_kmh raw) 2) as Hraw.
    { unfold calculate_velocity in Hvelocity.
      destruct (raw_velocity (point previous) (point current)) as [raw|];
        [|discriminate].
      injection Hvelocity as <-. by exists raw. }
    destruct (1000 <? speed_kmh m)%float eqn:Hspeed; simpl.
    + split; [done|]. split; [split; [by exists m|done]|].
      split; [|split; by intros ? [= <-]].
      intros m' [= <-] Heq. by rewrite Heq in Hspeed.
    + split; [done|]. split; [|split; [done|split; [done|by intros ? [= <-]]]].
      split; [done|]. intros (m' & [= <-] & Hm'). by rewrite Hm' in Hspeed.
  - split; [done|]. split; [|done]. split; [done|]. by intros (m & ? & _).
Qed.

(** C10. [calculate_velocity] returns the distance, the time difference and
    the speed each rounded to two decimals, and the threshold of 1000 km/h is
    applied to the rounded speed: a pair whose rounded speed is at most
    1000.00 is not flagged, whatever its exact speed. *)
Theorem threshold_on_rounded_speed points tl n i previous current raw :
  analyze_timeline points = Ok (Timeline tl n) →
  tl !! i = Some previous → tl !! S i = Some current →
  raw_velocity (point previous) (point current) = Ok raw →
  calculate_velocity (point previous) (point current)
  = Velocity {| distance_km := py_round (distance_km raw) 2;
                time_diff_hours := py_round (time_diff_hours raw) 2;
                speed_kmh := py_round (speed_kmh raw) 2 |}
  ∧ flagged current = (1000 <? py_round (speed_kmh raw) 2)%float
  ∧ ((py_round (speed_kmh raw) 2 <=? 1000)%float = true → flagged current = false).
Proof.
  intros Htl Hprev Hcur Hraw.
  assert (flagged current = (1000 <? py_round (speed_kmh raw) 2)%float) as Hflag.
  { rewrite (timeline_consecutive _ _ _ _ _ _ Htl Hprev Hcur).
    unfold analyse_pair, calculate_velocity. rewrite Hraw. simpl.
    by destruct (1000 <? py_round (speed_kmh raw) 2)%float. }
  split; [by unfold calculate_velocity; rewrite Hraw|].
  split; [done|]. intros Hle. rewrite Hflag. by apply leb_not_ltb.
Qed.

(** C2, as amended. The metrics [calculate_velocity] returns are the
    two-decimal roundings of unrounded values, of which the speed is the
    distance divided by the time difference when the time difference is not
    zero, and positive infinity whenever the time difference is zero, the
    distance being zero or not. *)
Theorem speed_of_velocity p1 p2 m :
  calculate_velocity p1 p2 = Velocity m →
  ∃ raw, raw_velocity p1 p2 = Ok raw ∧ m = round_metrics raw
    ∧ ((time_diff_hours raw =? 0)%float = false →
       speed_kmh raw = (distance_km raw / time_diff_hours raw)%float)
    ∧ ((time_diff_hours raw =? 0)%float = true → speed_kmh raw = infinity).
Proof.
  unfold calculate_velocity.
  destruct (raw_velocity p1 p2) as [raw|] eqn:Hraw; [|discriminate].
  intros [= <-]. exists raw. split; [done|]. split; [done|].
  revert Hraw. unfold raw_velocity.
  repeat match goal with
         | |- context [?c ≫= _] =>
             match c with
             | _ ≫= _ => fail 1
             | _ => destruct c; simpl; [|discriminate]
             end
         end.
  intros [= <-]. simpl.
  by destruct (abs (total_seconds _) / 3600 =? 0)%float.
Qed.

(** ** The risk score *)

Lemma hour_range d : 0 ≤ hour d < 24.
Proof. unfold hour. by apply Z.mod_pos_bound. Qed.

Lemma night_step_spec count loc :
  night_step count loc
  = count + Z.of_nat (length (night_points [loc])).
Proof.
  unfold night_step, night_points. cbn [List.filter].
  destruct (datetime_key loc) as [dt|]; [|simpl; lia].
  pose proof (hour_range dt) as [H0 H24]. unfold night_hour.
  apply Z.leb_le in H0. apply Z.ltb_lt in H24. rewrite H0, H24.
  rewrite andb_true_r, andb_true_l.
  destruct (22 <=? hour dt), (hour dt <? 5); simpl; lia.
Qed.

(** The night loop counts the points of [night_points]. *)
Lemma night_loop_count locations_data count :
  fold_left night_step locations_data count
  = count + Z.of_nat (length (night_points locations_data)).
Proof.
  revert count. induction locations_data as [|loc l IH]; intros count; simpl.
  - lia.
  - rewrite IH, night_step_spec. unfold night_points. simpl.
    destruct (match datetime_key loc with Ok dt => _ | Raise _ => _ end);
      simpl; lia.
Qed.

Lemma score_before_night_range locations_data before :
  score_before_night locations_data = Ok before →
  ∃ long_range jump repeated : bool,
    before = (if long_range then 20 else 0) + (if jump then 15 else 0)
             + (if repeated then 15 else 0).
Proof.
  unfold score_before_night.
  destruct (try_except _ _) as [sorted_data|]; simpl; [|discriminate].
  destruct (for_fold _ _ _) as [[total_distance max_jump]|]; simpl; [|discriminate].
  destruct (for_each bucket locations_data) as [coords|]; simpl; [|discriminate].
  intros [= <-]. unfold repeat_rule, jump_rule, distance_rule.
  exists (300 <? total_distance)%float, (200 <? max_jump)%float,
    (existsb (λ kc, (3 <? kc.2)%nat) (Counter coords)).
  destruct (300 <? total_distance)%float, (200 <? max_jump)%float,
    (existsb _ (Counter coords)); reflexivity.
Qed.

Lemma calculate_risk_score_Ok locations_data r :
  calculate_risk_score locations_data = Ok r →
  ∃ before, score_before_night locations_data = Ok before
    ∧ risk_score r
      = night_rule before
          (Z.of_nat (length (night_points locations_data)))
          (length locations_data)
    ∧ risk_level r = level_of (risk_score r).
Proof.
  destruct locations_data as [|loc l].
  - intros [= <-]. by exists 0.
  - unfold calculate_risk_score.
    destruct (score_before_night (loc :: l)) as [before|]; [|discriminate].
    simpl. intros [= <-]. exists before. split; [done|]. split; [|done].
    cbn [risk_score]. f_equal.
    change (fold_left night_step l (night_step 0 loc))
      with (fold_left night_step (loc :: l) 0).
    by rewrite night_loop_count.
Qed.

(** The night rule where the function returns. Whenever
    [calculate_risk_score] returns, the night rule adds either 20
    or nothing to the score of the three earlier rules, and it adds 20
    exactly when the input is not empty and the number of input points whose
    timestamp parses to an hour in [22,24) or [0,5), divided by the number
    of all input points, is strictly above 0.5. The quotient is the float
    the code computes; on up to 200 points the condition is that more than
    half of the points are night points. *)
Theorem night_rule_contribution locations_data r :
  calculate_risk_score locations_data = Ok r →
  ∃ before, score_before_night locations_data = Ok before
    ∧ (risk_score r = before + 20 ∨ risk_score r = before)
    ∧ (risk_score r = before + 20 ↔
       locations_data ≠ []
       ∧ (0.5 <? int_truediv (Z.of_nat (length (night_points locations_data)))
                   (Z.of_nat (length locations_data)))%float = true)
    ∧ ((length locations_data ≤ 200)%nat →
       (risk_score r = before + 20 ↔
        (length locations_data < 2 * length (night_points locations_data))%nat)).
Proof.
  intros (before & Hbefore & Hscore & _)%calculate_risk_score_Ok.
  exists before. split; [done|]. rewrite Hscore. unfold night_rule.
  pose proof (List.filter_length_le
                (λ loc, match datetime_key loc with
                        | Ok dt => night_hour (hour dt)
                        | Raise _ => false
                        end) locations_data) as Hle.
  fold (night_points locations_data) in Hle.
  destruct locations_data as [|loc l].
  - simpl. split; [by right|]. split; [split; [lia|by intros [? _]]|].
    intros _. lia.
  - replace (0 <? length (loc :: l))%nat with true by done.
    rewrite andb_true_l.
    assert ((length (loc :: l) ≤ 200)%nat →
            (0.5 <? int_truediv (Z.of_nat (length (night_points (loc :: l))))
                      (Z.of_nat (length (loc :: l))))%float
            = (Z.of_nat (length (loc :: l))
               <? 2 * Z.of_nat (length (night_points (loc :: l))))) as Hexact.
    { intros Hsmall. apply truediv_above_half; [simpl in *; lia|done]. }
    destruct (0.5 <? _)%float.
    + split; [by left|]. split; [done|]. intros Hsmall.
      specialize (Hexact Hsmall). symmetry in Hexact.
      apply Z.ltb_lt in Hexact. split; [intros _|done]. lia.
    + split; [by right|]. split; [split; [lia|by intros [_ ?]]|].
      intros Hsmall. specialize (Hexact Hsmall). symmetry in Hexact.
      apply Z.ltb_ge in Hexact. split; lia.
Qed.

(** C6. Whenever [calculate_risk_score] returns, the score is the sum of a
    subset of the four contributions 20 (distance), 15 (jump), 15 (repeated
    visits) and 20 (night), so an integer between 0 and 70; the level is
    High from 40, Medium from 20 to 39 and Low below 20; and the empty input
    gives score 0 and level Low. *)
Theorem risk_score_and_level locations_data r :
  calculate_risk_score locations_data = Ok r →
  (∃ long_range jump repeated night : bool,
     risk_score r = (if long_range then 20 else 0) + (if jump then 15 else 0)
                    + (if repeated then 15 else 0) + (if night then 20 else 0))
  ∧ 0 ≤ risk_score r ≤ 70
  ∧ (40 ≤ risk_score r → risk_level r = "High")
  ∧ (20 ≤ risk_score r < 40 → risk_level r = "Medium")
  ∧ (risk_score r < 20 → risk_level r = "Low")
  ∧ calculate_risk_score [] = Ok {| risk_score := 0; risk_level := "Low" |}.
Proof.
  intros (before & Hbefore & Hscore & Hlevel)%calculate_risk_score_Ok.
  apply score_before_night_range in Hbefore as (b1 & b2 & b3 & ->).
  assert (∃ night : bool, risk_score r
            = (if b1 then 20 else 0) + (if b2 then 15 else 0)
              + (if b3 then 15 else 0) + (if night then 20 else 0))
    as [b4 Hsum].
  { rewrite Hscore. unfold night_rule.
    destruct (_ && _); [by exists true|exists false; lia]. }
  split; [by exists b1, b2, b3, b4|].
  rewrite Hlevel. unfold level_of.
  split; [destruct b1, b2, b3, b4; lia|].
  destruct (40 <=? risk_score r) eqn:H40; [|destruct (20 <=? risk_score r) eqn:H20];
    repeat split; try done; lia.
Qed.

(** ** The travel statistics *)

Lemma movement_loop_count valid_points st st' start n :
  for_fold (movement_step valid_points) st (seq start n) = Ok st' →
  st'.2 = (st.2 + n)%nat.
Proof.
  revert st start. induction n as [|n IH]; intros st start; simpl.
  - intros [= <-]. lia.
  - destruct (movement_step valid_points st start) as [st1|] eqn:Hstep;
      simpl; [|discriminate].
    intros ->%IH. revert Hstep. unfold movement_step.
    repeat match goal with
           | |- context [?c ≫= _] =>
               match c with
               | _ ≫= _ => fail 1
               | _ => destruct c; simpl; [|discriminate]
               end
           end.
    intros [= <-]. simpl. lia.
Qed.

Lemma bucket_Ok p b : bucket p = Ok b → coordinate_valid p = true.
Proof.
  unfold bucket, coordinate_valid, getitem, get.
  destruct (p !! "latitude") as [[|lat|]|]; simpl; try discriminate.
  by destruct (p !! "longitude") as [[|lon|]|].
Qed.

Lemma coordinate_valid_has_coordinates p :
  coordinate_valid p = true → has_coordinates p = true.
Proof.
  unfold coordinate_valid, has_coordinates.
  by destruct (get p "latitude"), (get p "longitude").
Qed.

(** When every point that has coordinates falls in a bucket, the points
    with coordinates are the coordinate-valid ones. *)
Lemma valid_points_coordinate_valid locations_data coords :
  for_each bucket (List.filter has_coordinates locations_data) = Ok coords →
  List.filter has_coordinates locations_data
  = List.filter coordinate_valid locations_data.
Proof.
  intros Hcoords%for_each_Forall2. apply List.filter_ext_in. intros p Hp.
  destruct (has_coordinates p) eqn:Hhas.
  - symmetry.
    assert (Forall (λ p, coordinate_valid p = true)
              (List.filter has_coordinates locations_data)) as Hall.
    { eapply Forall2_Forall_l; [exact Hcoords|].
      apply Forall_true. intros b a. apply bucket_Ok. }
    rewrite Forall_forall in Hall. apply Hall.
    apply list_elem_of_In, filter_In. by split.
  - destruct (coordinate_valid p) eqn:Hcv; [|done].
    by rewrite (coordinate_valid_has_coordinates p Hcv) in Hhas.
Qed.

Lemma consecutive_distances_cons a b l :
  consecutive_distances (a :: b :: l)
  = (p1 ← coordinates a; p2 ← coordinates b;
     d ← haversine p1 p2;
     ds ← consecutive_distances (b :: l);
     mret (d :: ds)).
Proof. done. Qed.

(** The loop adds the distances of the consecutive points, in their order,
    to the total it starts from. *)
Lemma movement_loop_sum valid_points st st' start n :
  (start + n = length valid_points - 1)%nat →
  for_fold (movement_step valid_points) st (seq start n) = Ok st' →
  ∃ distances,
    consecutive_distances (drop start valid_points) = Ok distances
    ∧ length distances = n
    ∧ st'.1 = fold_left (λ acc d, (acc + d)%float) distances st.1.
Proof.
  revert st start. induction n as [|n IH]; intros st start Hn; cbn [seq for_fold].
  - intros [= <-]. exists []. split; [|done].
    assert (length (drop start valid_points) ≤ 1)%nat as Hshort
      by (rewrite length_drop; lia).
    by destruct (drop start valid_points) as [|a [|b l]]; [..|simpl in Hshort; lia].
  - destruct (movement_step valid_points st start) as [st1|] eqn:Hstep;
      cbn [mbind result_bind]; [|discriminate].
    intros Hloop. destruct (IH st1 (S start)) as (ds & Hds & Hlen & Hsum);
      [lia|done|].
    revert Hstep. unfold movement_step, index.
    destruct (valid_points !! start) as [a|] eqn:Ha;
      cbn [mbind result_bind]; [|discriminate].
    destruct (coordinates a) as [p1|] eqn:Hp1;
      cbn [mbind result_bind]; [|discriminate].
    replace (start + 1)%nat with (S start) by lia.
    destruct (valid_points !! S start) as [b|] eqn:Hb;
      cbn [mbind result_bind]; [|discriminate].
    destruct (coordinates b) as [p2|] eqn:Hp2;
      cbn [mbind result_bind]; [|discriminate].
    destruct (haversine p1 p2) as [dist|] eqn:Hdist;
      cbn [mbind result_bind]; [|discriminate].
    intros [= <-]. exists (dist :: ds).
    rewrite (drop_S _ _ _ Ha). rewrite (drop_S _ _ _ Hb) in Hds |- *.
    rewrite consecutive_distances_cons, Hp1. cbn [mbind result_bind].
    rewrite Hp2. cbn [mbind result_bind]. rewrite Hdist.
    cbn [mbind result_bind]. rewrite Hds. cbn [mbind result_bind mret result_ret].
    split; [done|]. split; [simpl; lia|]. by rewrite Hsum.
Qed.

(** C8, as amended. Whenever [generate_travel_statistics] returns,
    [total_movements] is max(0, k-1) for k the number of coordinate-valid
    input points; the distances between the consecutive coordinate-valid
    points are all defined, one for each movement; [total_distance_km] is
    their sum rounded to two decimals; and [average_movement_km] is that
    sum, before it is rounded, divided by [total_movements] and then rounded
    to two decimals when [total_movements] is positive, and 0 when it is
    0. *)
Theorem movements_and_average locations_data r :
  generate_travel_statistics locations_data = Ok r →
  Z.of_nat (total_movements r)
  = Z.max 0 (Z.of_nat (length (List.filter coordinate_valid locations_data)) - 1)
  ∧ ∃ distances,
      consecutive_distances (List.filter coordinate_valid locations_data)
      = Ok distances
      ∧ length distances = total_movements r
      ∧ total_distance_km r = py_round (float_sum distances) 2
      ∧ ((0 < total_movements r)%nat →
         average_movement_km r
         = py_round (float_sum distances
                     / float_of_int (Z.of_nat (total_movements r))) 2)
      ∧ (total_movements r = 0%nat → average_movement_km r = 0%float).
Proof.
  destruct locations_data as [|loc l].
  - intros [= <-]. simpl. split; [done|]. exists [].
    repeat split; try done. lia.
  - unfold generate_travel_statistics.
    destruct (distance_sum (loc :: l)) as [[total_distance movements]|] eqn:Hsum;
      cbn [mbind result_bind]; [|discriminate].
    destruct (for_each bucket _) as [coords|] eqn:Hcoords;
      cbn [mbind result_bind]; [|discriminate].
    destruct (most_visited _ _) as [label|]; cbn [mbind result_bind]; [|discriminate].
    intros [= <-]. cbn [total_movements total_distance_km average_movement_km].
    unfold distance_sum in Hsum.
    rewrite (valid_points_coordinate_valid _ _ Hcoords) in Hsum.
    pose proof (movement_loop_count _ _ _ _ _ Hsum) as Hcount.
    cbn [snd] in Hcount.
    apply movement_loop_sum in Hsum as (distances & Hdistances & Hlen & Htotal);
      [|lia].
    rewrite drop_0 in Hdistances. cbn [fst] in Htotal.
    fold (float_sum distances) in Htotal. subst total_distance.
    split; [lia|]. exists distances. split; [done|]. split; [lia|].
    split; [done|]. unfold avg_movement. split.
    + intros Hpos. by replace (0 <? movements)%nat with true
        by (symmetry; apply Nat.ltb_lt; lia).
    + by intros ->.
Qed.

(** ** Coordinates that are null *)

(** C1. [analyze_timeline] returns on every input. The other two entry
    points do not: a single observation without coordinates makes
    [calculate_risk_score] raise [TypeError] (at [round(None, 4)]), and an
    observation without coordinates that follows one with coordinates makes
    [generate_travel_statistics] raise it in the search for a landmark. *)
Theorem null_coordinates_raise :
  (∀ points, ∃ r, analyze_timeline points = Ok r)
  ∧ calculate_risk_score [Sample.no_gps] = Raise TypeError
  ∧ generate_travel_statistics [Sample.paris; Sample.no_gps] = Raise TypeError.
Proof.
  split; [apply analyze_timeline_total|]. split; vm_compute; reflexivity.
Qed.

(** ** More on the timeline *)

Lemma filter_Permutation {A} (f : A → bool) (l l' : list A) :
  l ≡ₚ l' → List.filter f l ≡ₚ List.filter f l'.
Proof.
  induction 1 as [|x l l' _ IH|x y l|l l' l'' _ IH1 _ IH2]; simpl.
  - done.
  - destruct (f x); [by constructor|done].
  - destruct (f x), (f y); try done. apply perm_swap.
  - by etransitivity.
Qed.

Lemma filter_none {A} (f : A → bool) (l : list A) :
  Forall (λ a, f a = false) l → List.filter f l = [].
Proof. induction 1 as [|a l Ha _ IH]; [done|]. simpl. by rewrite Ha. Qed.

Lemma for_each_total {A B} (f : A → result B) l :
  Forall (λ a, ∃ b, f a = Ok b) l → ∃ bs, for_each f l = Ok bs.
Proof.
  induction 1 as [|a l [b Hb] _ [bs IH]]; [by eexists|].
  simpl. rewrite Hb, IH. by eexists.
Qed.

Lemma comparable_refl d : comparable d d = true.
Proof. unfold comparable. by destruct (utcoffset_us d). Qed.

Lemma StronglySorted_related {A} (R : A → A → Prop) l x y :
  StronglySorted R l → x ∈ l → y ∈ l → x = y ∨ R x y ∨ R y x.
Proof.
  induction 1 as [|a l _ IH Hall]; [by intros ?%elem_of_nil|].
  rewrite Forall_forall in Hall.
  intros [->|Hx]%elem_of_cons [->|Hy]%elem_of_cons; auto.
Qed.

Lemma insert_sorted_total {A} (x : datetime * A) l :
  Forall (λ y, comparable y.1 x.1 = true) l →
  ∃ l', insert_sorted dt_lt x l = Ok l'.
Proof.
  induction 1 as [|y l Hy _ [l' IH]]; [by eexists|].
  cbn [insert_sorted].
  assert (dt_lt y.1 x.1 = Ok (instant y.1 <? instant x.1)) as ->
    by (unfold dt_lt; by rewrite Hy).
  cbn [mbind result_bind].
  destruct (instant y.1 <? instant x.1); [|by eexists].
  rewrite IH. by eexists.
Qed.

Lemma sort_keyed_total {A} (l : list (datetime * A)) :
  (∀ x y, x ∈ l → y ∈ l → comparable x.1 y.1 = true) →
  ∃ s, sort_keyed dt_lt l = Ok s.
Proof.
  induction l as [|x l IH]; intros Hall; [by eexists|]. simpl.
  destruct IH as [s Hs].
  { intros a b Ha Hb. apply Hall; by right. }
  rewrite Hs. simpl. apply insert_sorted_total.
  apply sort_keyed_Ok in Hs as [Hperm _].
  apply Forall_forall. intros y Hy. rewrite Hperm in Hy.
  apply Hall; [by right|by left].
Qed.

(** Timestamps that all parse and are all naive, or all aware. *)
Lemma sorted_total l :
  (∀ p q, p ∈ l → q ∈ l →
          ∃ dp dq, datetime_key p = Ok dp ∧ datetime_key q = Ok dq
                   ∧ comparable dp dq = true) →
  ∃ sp, sorted dt_lt datetime_key l = Ok sp.
Proof.
  intros Hall. unfold sorted.
  destruct (for_each_total (λ a, k ← datetime_key a; mret (k, a)) l)
    as [keyed Hkeyed].
  { apply Forall_forall. intros p Hp.
    destruct (Hall p p Hp Hp) as (d & _ & Hd & _). rewrite Hd. by eexists. }
  rewrite Hkeyed. simpl.
  apply keying_Ok in Hkeyed as [<- Hkeys].
  destruct (sort_keyed_total keyed) as [s ->]; [|by eexists].
  rewrite Forall_forall in Hkeys.
  intros x y Hx Hy.
  destruct (Hall x.2 y.2) as (dx & dy & Hdx & Hdy & Hc);
    [by apply list_elem_of_fmap_2..|].
  rewrite (Hkeys x Hx) in Hdx. rewrite (Hkeys y Hy) in Hdy.
  by injection Hdx as <-; injection Hdy as <-.
Qed.

Lemma sorted_Ok_comparable l sp :
  sorted dt_lt datetime_key l = Ok sp →
  ∀ p q, p ∈ l → q ∈ l →
         ∃ dp dq, datetime_key p = Ok dp ∧ datetime_key q = Ok dq
                  ∧ comparable dp dq = true.
Proof.
  intros (Hperm & Hsorted & _ & Hvalid)%sorted_Ok p q Hp Hq.
  rewrite Forall_forall in Hvalid.
  destruct (StronglySorted_related _ sp p q Hsorted) as [->|[H|H]];
    [by rewrite Hperm..| | |].
  - specialize (Hvalid q Hq). unfold time_valid in Hvalid.
    destruct (datetime_key q) as [d|]; [|done].
    exists d, d. by rewrite comparable_refl.
  - destruct H as (dp & dq & ? & ? & ? & _). by exists dp, dq.
  - destruct H as (dq & dp & ? & ? & ?%comparable_sym & _). by exists dp, dq.
Qed.

Lemma walk_shape previous l e :
  e ∈ walk previous l →
  (∃ c, e = unflagged c) ∨ (∃ p c, e = analyse_pair p c).
Proof.
  revert previous. induction l as [|c l IH]; intros previous; simpl.
  - by intros ?%elem_of_nil.
  - intros [->|He]%elem_of_cons; [|by eapply IH].
    destruct previous; eauto.
Qed.

(** X1. Whenever [analyze_timeline] returns a timeline, the points of its
    entries are the input points whose latitude, longitude and timestamp are
    all truthy (so a coordinate of 0.0 leaves a point out), in ascending
    order of timestamp, equal instants in input order; and
    [total_points_analyzed] is the number of entries, at most the number of
    input points. *)
Theorem timeline_of_truthy_points points tl n :
  analyze_timeline points = Ok (Timeline tl n) →
  point <$> tl ≡ₚ List.filter valid_point points
  ∧ StronglySorted timestamp_le (point <$> tl)
  ∧ (∀ t, List.filter (at_instant t) (point <$> tl)
          = List.filter (at_instant t) (List.filter valid_point points))
  ∧ n = length tl ∧ (n ≤ length points)%nat.
Proof.
  intros (sp & Hsorted & -> & ->)%analyze_timeline_Timeline.
  rewrite walk_points.
  apply sorted_Ok in Hsorted as (Hperm & Hsort & Hstable & _).
  split; [done|]. split; [done|]. split; [done|].
  split.
  - rewrite <- (length_fmap point (walk None sp)), walk_points.
    by rewrite Hperm.
  - apply List.filter_length_le.
Qed.

(** X2. In every timeline [analyze_timeline] returns, an entry is flagged
    exactly when it carries a reason, and a flagged entry carries metrics
    whose speed is above 1000. *)
Theorem flagged_entries_explained points tl n e :
  analyze_timeline points = Ok (Timeline tl n) → e ∈ tl →
  (flagged e = true ↔ reason e ≠ None)
  ∧ (flagged e = true →
     ∃ m, movement_metrics e = Some m ∧ (1000 <? speed_kmh m)%float = true).
Proof.
  intros (sp & _ & -> & _)%analyze_timeline_Timeline He.
  destruct (walk_shape _ _ _ He) as [[c ->]|(p & c & ->)]; [done|].
  unfold analyse_pair. destruct (calculate_velocity p c) as [m|]; [|done].
  destruct (1000 <? speed_kmh m)%float eqn:Hspeed; simpl; [|done].
  split; [done|]. intros _. by exists m.
Qed.

(** X3. When no input point has a truthy latitude, longitude and timestamp
    (the empty input included), [analyze_timeline] returns the empty
    timeline with a count of 0, not an error. *)
Theorem no_valid_points_empty_timeline points :
  Forall (λ p, valid_point p = false) points →
  analyze_timeline points = Ok (Timeline [] 0).
Proof.
  intros Hnone. rewrite analyze_timeline_unfold.
  by rewrite (filter_none _ _ Hnone).
Qed.

(** X4. The timeline does not depend on the order of the input: when no two
    different input points are at the same instant, every rearrangement of
    an input that gives a timeline gives the same timeline. *)
Theorem timeline_order_independent points points' tl n :
  points ≡ₚ points' →
  (∀ p q d d', p ∈ points → q ∈ points →
               datetime_key p = Ok d → datetime_key q = Ok d' →
               instant d = instant d' → p = q) →
  analyze_timeline points = Ok (Timeline tl n) →
  analyze_timeline points' = Ok (Timeline tl n).
Proof.
  intros Hperm Hdistinct (sp & Hsorted & -> & ->)%analyze_timeline_Timeline.
  pose proof (filter_Permutation valid_point _ _ Hperm) as Hfilter.
  destruct (sorted_total (List.filter valid_point points')) as [sp' Hsorted'].
  { intros p q Hp Hq.
    apply (sorted_Ok_comparable _ _ Hsorted); by rewrite Hfilter. }
  rewrite analyze_timeline_unfold, Hsorted', <- Hfilter.
  do 3 f_equal. symmetry.
  apply sorted_Ok in Hsorted as (Hp & Hs & _).
  apply sorted_Ok in Hsorted' as (Hp' & Hs' & _).
  apply (StronglySorted_unique_strong timestamp_le); [|done..|].
  - intros x1 x2 Hx1 Hx2 (d1 & d2 & Hd1 & Hd2 & _ & Hle)
      (d2' & d1' & Hd2' & Hd1' & _ & Hge).
    rewrite Hd1 in Hd1'. rewrite Hd2 in Hd2'.
    injection Hd1' as <-. injection Hd2' as <-.
    rewrite Hp in Hx1. rewrite Hp', <- Hfilter in Hx2.
    apply list_elem_of_In, filter_In in Hx1 as [Hx1%list_elem_of_In _].
    apply list_elem_of_In, filter_In in Hx2 as [Hx2%list_elem_of_In _].
    apply (Hdistinct x1 x2 d1 d2); [done..|lia].
  - by rewrite Hp, Hp', Hfilter.
Qed.

(** ** The sign of a float *)

Lemma opp_involutive (x : float) : (- - x)%float = x.
Proof.
  apply Prim2SF_inj. rewrite !opp_spec.
  by destruct (Prim2SF x) as [[]|[]| |[] ? ?].
Qed.

Lemma abs_opp (x : float) : abs (- x) = abs x.
Proof.
  apply Prim2SF_inj. rewrite !abs_spec, opp_spec. by destruct (Prim2SF x).
Qed.

Lemma SF2Prim_opp s : SF2Prim (SFopp s) = (- SF2Prim s)%float.
Proof.
  destruct s as [[]|[]| |[] m e]; try reflexivity.
  simpl. by rewrite opp_involutive.
Qed.

Lemma binary_round_aux_opp sx m e l :
  binary_round_aux prec emax (negb sx) m e l
  = SFopp (binary_round_aux prec emax sx m e l).
Proof.
  unfold binary_round_aux.
  destruct (shr_fexp prec emax m e l) as [mrs e'].
  destruct (shr_fexp prec emax _ e' loc_Exact) as [mrs' e''].
  destruct (shr_m mrs'); [done| |done].
  by destruct (e'' <=? emax - prec).
Qed.

Lemma SFdiv_opp_l (a b : Z) :
  a ≠ 0 →
  SFdiv prec emax (Z2SF (- a)) (Z2SF b)
  = SFopp (SFdiv prec emax (Z2SF a) (Z2SF b)).
Proof.
  intros Ha. destruct a as [|a|a]; [done|..]; destruct b as [|b|b];
    try reflexivity; unfold Z.opp, Z2SF, SFdiv;
    destruct (SFdiv_core_binary prec emax _ 0 _ 0) as [[mz ez] lz];
    cbn [xorb].
  - apply (binary_round_aux_opp false).
  - apply (binary_round_aux_opp true).
  - rewrite (binary_round_aux_opp false).
    by destruct (binary_round_aux prec emax false mz ez lz) as [[]|[]| |[] ? ?].
  - rewrite (binary_round_aux_opp true).
    by destruct (binary_round_aux prec emax true mz ez lz) as [[]|[]| |[] ? ?].
Qed.

Lemma abs_int_truediv_opp (a b : Z) :
  abs (int_truediv (- a) b) = abs (int_truediv a b).
Proof.
  destruct (decide (a = 0)) as [->|Ha]; [done|].
  unfold int_truediv. by rewrite SFdiv_opp_l, SF2Prim_opp, abs_opp.
Qed.

Lemma dt_sub_swap t1 t2 delta :
  dt_sub t2 t1 = Ok delta → dt_sub t1 t2 = Ok (- delta).
Proof.
  unfold dt_sub. destruct (comparable t2 t1) eqn:Hc; [|discriminate].
  intros [= <-]. rewrite (comparable_sym _ _ Hc). f_equal. lia.
Qed.

(** X5. The metrics do not depend on which of the two points comes first:
    when the distance between their coordinates is the same in both
    directions, [calculate_velocity] returns the same metrics for a pair
    and for the pair swapped (the time difference is an absolute value). *)
Theorem velocity_direction_agnostic p1 p2 m :
  (∀ c1 c2, coordinates p1 = Ok c1 → coordinates p2 = Ok c2 →
            geodesic_km c1 c2 = geodesic_km c2 c1) →
  calculate_velocity p1 p2 = Velocity m →
  calculate_velocity p2 p1 = Velocity m.
Proof.
  intros Hsym. unfold calculate_velocity, raw_velocity.
  specialize (Hsym) as Hsym'. unfold coordinates in Hsym'.
  destruct (getitem p1 "latitude") as [lat1|]; [|done].
  destruct (getitem p1 "longitude") as [lon1|]; [|done].
  destruct (getitem p2 "latitude") as [lat2|]; [|done].
  destruct (getitem p2 "longitude") as [lon2|]; [|done].
  cbn [mbind result_bind mret result_ret] in *.
  rewrite <- (Hsym' _ _ eq_refl eq_refl).
  destruct (geodesic_km (lat1, lon1) (lat2, lon2)) as [d|]; [|done].
  cbn [mbind result_bind].
  destruct (getitem p1 "datetime") as [s1|]; [|done]. cbn [mbind result_bind].
  destruct (dateutil_parse s1) as [t1|]; [|done]. cbn [mbind result_bind].
  destruct (getitem p2 "datetime") as [s2|]; [|done]. cbn [mbind result_bind].
  destruct (dateutil_parse s2) as [t2|]; [|done]. cbn [mbind result_bind].
  destruct (dt_sub t2 t1) as [delta|] eqn:Hsub; [|done].
  rewrite (dt_sub_swap _ _ _ Hsub). cbn [mbind result_bind].
  unfold total_seconds. by rewrite abs_int_truediv_opp.
Qed.

(** ** [==] on floats *)

Lemma SFcompare_Eq x y :
  SFcompare x y = Some Eq →
  match x, y with
  | S754_zero _, S754_zero _ => True
  | S754_infinity s1, S754_infinity s2 => s1 = s2
  | S754_finite s1 m1 e1, S754_finite s2 m2 e2 => s1 = s2 ∧ m1 = m2 ∧ e1 = e2
  | _, _ => False
  end.
Proof.
  destruct x as [sx|sx| |sx mx ex], y as [sy|sy| |sy my ey]; simpl;
    try done; try (by destruct sx); try (by destruct sy);
    try (by destruct sx, sy).
  pose proof (Pos.compare_eq mx my) as Hm. unfold Pos.compare in Hm.
  destruct sx, sy; try done; destruct (ex ?= ey) eqn:He; try done;
    apply Z.compare_eq in He;
    destruct (Pos.compare_cont Eq mx my); try done; intros _;
    by rewrite Hm, He.
Qed.

Lemma SFcompare_refl x : x ≠ S754_nan → SFcompare x x = Some Eq.
Proof.
  destruct x as [s|s| |s m e]; try done; [by destruct s|]. intros _. simpl.
  pose proof (Pos.compare_refl m) as Hm. unfold Pos.compare in Hm.
  rewrite Z.compare_refl, Hm. by destruct s.
Qed.

Lemma float_eqb_sym (x y : float) : (x =? y)%float = (y =? x)%float.
Proof.
  rewrite !FloatAxioms.eqb_spec. unfold SFeqb.
  rewrite (SFcompare_antisym (Prim2SF x) (Prim2SF y)).
  by destruct (SFcompare (Prim2SF x) (Prim2SF y)) as [[]|].
Qed.

Lemma float_eqb_trans (x y z : float) :
  (x =? y)%float = true → (y =? z)%float = true → (x =? z)%float = true.
Proof.
  rewrite !FloatAxioms.eqb_spec. unfold SFeqb.
  destruct (SFcompare (Prim2SF x) (Prim2SF y)) as [[]|] eqn:Hxy; try done.
  destruct (SFcompare (Prim2SF y) (Prim2SF z)) as [[]|] eqn:Hyz; try done.
  intros _ _. apply SFcompare_Eq in Hxy, Hyz.
  destruct (Prim2SF x) as [sx|sx| |sx mx ex], (Prim2SF y) as [sy|sy| |sy my ey],
    (Prim2SF z) as [sz|sz| |sz mz ez]; try done.
  - subst. by destruct sz.
  - destruct Hxy as (-> & -> & ->), Hyz as (-> & -> & ->).
    by rewrite SFcompare_refl.
Qed.

Lemma bucket_eqb_sym a b : bucket_eqb a b = bucket_eqb b a.
Proof. unfold bucket_eqb. by rewrite (float_eqb_sym a.1), (float_eqb_sym a.2). Qed.

Lemma bucket_eqb_trans a b c :
  bucket_eqb a b = true → bucket_eqb b c = true → bucket_eqb a c = true.
Proof.
  unfold bucket_eqb. intros [H1 H2]%andb_prop [H3 H4]%andb_prop.
  by rewrite (float_eqb_trans _ _ _ H1 H3), (float_eqb_trans _ _ _ H2 H4).
Qed.

(** Equal keys are equal to the same elements. *)
Lemma bucket_eqb_class a b c :
  bucket_eqb a b = true → bucket_eqb a c = bucket_eqb b c.
Proof.
  intros Hab. destruct (bucket_eqb b c) eqn:Hbc.
  - by eapply bucket_eqb_trans.
  - destruct (bucket_eqb a c) eqn:Hac; [|done].
    rewrite bucket_eqb_sym in Hab.
    by rewrite (bucket_eqb_trans _ _ _ Hab Hac) in Hbc.
Qed.

(** ** [collections.Counter] *)

Lemma Counter_snoc l x : Counter (l ++ [x]) = count_key x (Counter l).
Proof. unfold Counter. by rewrite fold_left_app. Qed.

Lemma occurrences_snoc k l x :
  occurrences k (l ++ [x])
  = (occurrences k l + if bucket_eqb k x then 1 else 0)%nat.
Proof.
  unfold occurrences. rewrite List.filter_app, length_app. simpl.
  by destruct (bucket_eqb k x).
Qed.

(** What [count_key] does: it adds one to the first entry whose key equals
    [x], or appends a new entry for [x]. *)
Lemma count_key_cases x c :
  (∃ c1 k n c2,
     c = c1 ++ (k, n) :: c2
     ∧ Forall (λ k', bucket_eqb k' x = false) c1.*1
     ∧ bucket_eqb k x = true
     ∧ count_key x c = c1 ++ (k, S n) :: c2)
  ∨ (Forall (λ k', bucket_eqb k' x = false) c.*1
     ∧ count_key x c = c ++ [(x, 1%nat)]).
Proof.
  induction c as [|[k n] c IH]; [right; by split|]. simpl.
  destruct (bucket_eqb k x) eqn:Hk.
  - left. exists [], k, n, c. by repeat split.
  - destruct IH as [(c1 & k' & n' & c2 & -> & Hc1 & Hk' & ->)|[Hc ->]].
    + left. exists ((k, n) :: c1), k', n', c2. repeat split; [|done].
      by constructor.
    + right. split; [by constructor|done].
Qed.

Lemma count_key_length x c :
  (length c ≤ length (count_key x c) ≤ S (length c))%nat.
Proof.
  destruct (count_key_cases x c)
    as [(c1 & k & n & c2 & -> & _ & _ & ->)|[_ ->]];
    rewrite !length_app; simpl; lia.
Qed.

Lemma Counter_length l :
  (length (Counter l) ≤ length l)%nat ∧ (l ≠ [] → Counter l ≠ []).
Proof.
  induction l as [|x l [IH1 IH2]] using rev_ind; [done|].
  rewrite Counter_snoc, length_app. simpl.
  pose proof (count_key_length x (Counter l)). split; [lia|].
  intros _ Hnil.
  destruct (count_key_cases x (Counter l))
    as [(c1 & k & n & c2 & _ & _ & _ & Heq)|[_ Heq]]; rewrite Heq in Hnil.
  - by destruct c1.
  - by destruct (Counter l).
Qed.

(** On keys that are equal to themselves (no NaN): the counter holds one
    entry for each class of equal keys, with the number of its members. *)
Lemma Counter_spec l :
  Forall (λ k, bucket_eqb k k = true) l →
  (∀ k n, (k, n) ∈ Counter l → n = occurrences k l ∧ k ∈ l)
  ∧ (∀ x, x ∈ l → ∃ k n, (k, n) ∈ Counter l ∧ bucket_eqb k x = true)
  ∧ StronglySorted (λ k k', bucket_eqb k k' = false) (Counter l).*1.
Proof.
  induction l as [|x l IH] using rev_ind.
  - intros _. split; [|split].
    + by intros k n ?%elem_of_nil.
    + by intros x ?%elem_of_nil.
    + constructor.
  - intros [Hl [Hx _]%Forall_cons]%Forall_app.
    destruct (IH Hl) as (Hcount & Hcover & Hdistinct).
    rewrite Counter_snoc.
    destruct (count_key_cases x (Counter l))
      as [(c1 & k & n & c2 & HC & Hc1 & Hk & ->)|[Hc ->]].
    + rewrite HC in Hcount, Hcover, Hdistinct.
      rewrite fmap_app, fmap_cons in *.
      apply StronglySorted_app in Hdistinct as (H12 & Hs1 & Hs2).
      apply StronglySorted_cons in Hs2 as [Hk2' Hs2].
      pose proof Hk2' as Hk2.
      rewrite Forall_forall in Hc1, Hk2.
      split; [|split].
      * intros k' n' Hin. rewrite occurrences_snoc.
        apply elem_of_app in Hin as [Hin|[Hin|Hin]%elem_of_cons].
        -- rewrite (Hc1 k'); [|by apply (list_elem_of_fmap_2 fst _ (k', n'))].
           destruct (Hcount k' n') as [-> ?]; [set_solver|].
           split; [lia|set_solver].
        -- simplify_eq. rewrite Hk.
           destruct (Hcount k n) as [-> ?]; [set_solver|].
           split; [lia|set_solver].
        -- assert (bucket_eqb k' x = false) as ->.
           { rewrite bucket_eqb_sym, <- (bucket_eqb_class k x k' Hk).
             apply Hk2. by apply (list_elem_of_fmap_2 fst _ (k', n')). }
           destruct (Hcount k' n') as [-> ?]; [set_solver|].
           split; [lia|set_solver].
      * intros y [Hy| ->%list_elem_of_singleton]%elem_of_app.
        -- destruct (Hcover y Hy) as (k' & n' & Hin & Heq).
           apply elem_of_app in Hin as [Hin|[Hin|Hin]%elem_of_cons].
           ++ exists k', n'. split; [set_solver|done].
           ++ simplify_eq. exists k, (S n). split; [set_solver|done].
           ++ exists k', n'. split; [set_solver|done].
        -- exists k, (S n). split; [set_solver|done].
      * apply StronglySorted_app. split; [done|]. split; [done|].
        apply StronglySorted_cons. by split.
    + split; [|split].
      * intros k' n' [Hin|Hin%list_elem_of_singleton]%elem_of_app.
        -- rewrite occurrences_snoc. rewrite Forall_forall in Hc.
           rewrite (Hc k'); [|by apply (list_elem_of_fmap_2 fst _ (k', n'))].
           destruct (Hcount k' n' Hin) as [-> ?]. split; [lia|set_solver].
        -- simplify_eq. rewrite occurrences_snoc, Hx.
           split; [|set_solver].
           assert (occurrences x l = 0%nat) as ->; [|done].
           unfold occurrences. rewrite filter_none; [done|].
           apply Forall_forall. intros y Hy.
           destruct (Hcover y Hy) as (k' & n' & Hin & Heq).
           rewrite Forall_forall in Hc.
           rewrite bucket_eqb_sym, <- (bucket_eqb_class k' y x Heq).
           apply Hc. by apply (list_elem_of_fmap_2 fst _ (k', n')).
      * intros y [Hy| ->%list_elem_of_singleton]%elem_of_app.
        -- destruct (Hcover y Hy) as (k' & n' & Hin & Heq).
           exists k', n'. split; [apply elem_of_app; by left|done].
        -- exists x, 1%nat.
           split; [apply elem_of_app; right; apply list_elem_of_here|done].
      * rewrite fmap_app. apply StronglySorted_app. split; [|split; [done|]].
        -- intros k1 k2 Hk1 Hk2%list_elem_of_singleton. subst k2.
           rewrite Forall_forall in Hc. by apply Hc.
        -- repeat constructor.
Qed.

Lemma Counter_total l : sum_list_with snd (Counter l) = length l.
Proof.
  induction l as [|x l IH] using rev_ind; [done|].
  rewrite Counter_snoc, length_app, <- IH. simpl.
  destruct (count_key_cases x (Counter l))
    as [(c1 & k & n & c2 & -> & _ & _ & ->)|[_ ->]];
    rewrite !sum_list_with_app; simpl; lia.
Qed.

Lemma Counter_count_le l k n : (k, n) ∈ Counter l → (n ≤ length l)%nat.
Proof.
  rewrite <- Counter_total. generalize (Counter l). intros c Hin.
  induction c as [|[k' n'] c IH]; [by apply elem_of_nil in Hin|].
  apply elem_of_cons in Hin as [[= <- <-]|Hin]; simpl; [lia|].
  specialize (IH Hin). lia.
Qed.

(** ** More on the risk score *)

Lemma score_before_night_split locations_data :
  score_before_night locations_data
  = (base ← distance_score locations_data;
     coords ← for_each bucket locations_data;
     mret (repeat_rule base (Counter coords))).
Proof.
  unfold score_before_night, distance_score.
  destruct (try_except _ _) as [sorted_data|]; [|done]. cbn [mbind result_bind].
  by destruct (for_fold _ _ _) as [st|].
Qed.

Lemma night_rule_cases before count n :
  night_rule before count n = before ∨ night_rule before count n = before + 20.
Proof. unfold night_rule. destruct (_ && _); auto. Qed.

(** X6. Whenever [calculate_risk_score] returns, the score is the sum of
    the score of the distance rules, of 0 or 15 for repeated visits and of 0
    or 20 for the night. The 15 are never added on fewer than four input
    points and, when no rounded coordinate is NaN, they are added exactly
    when some pair of coordinates rounded to four decimals occurs more than
    three times among all the input points. *)
Theorem repeated_visits_rule locations_data r :
  calculate_risk_score locations_data = Ok r →
  ∃ base coords visits night,
    distance_score locations_data = Ok base
    ∧ for_each bucket locations_data = Ok coords
    ∧ risk_score r = base + visits + night
    ∧ (visits = 0 ∨ visits = 15) ∧ (night = 0 ∨ night = 20)
    ∧ ((length locations_data ≤ 3)%nat → visits = 0)
    ∧ (Forall (λ k, bucket_eqb k k = true) coords →
       (visits = 15 ↔ ∃ k, k ∈ coords ∧ (3 < occurrences k coords)%nat)).
Proof.
  intros (before & Hbefore & Hscore & _)%calculate_risk_score_Ok.
  rewrite score_before_night_split in Hbefore.
  destruct (distance_score locations_data) as [base|]; [|done].
  destruct (for_each bucket locations_data) as [coords|] eqn:Hcoords; [|done].
  injection Hbefore as <-.
  exists base, coords,
    (if existsb (λ kc, (3 <? kc.2)%nat) (Counter coords) then 15 else 0),
    (night_rule (repeat_rule base (Counter coords))
       (Z.of_nat (length (night_points locations_data)))
       (length locations_data)
     - repeat_rule base (Counter coords)).
  split; [done|]. split; [done|].
  split; [rewrite Hscore; unfold repeat_rule; destruct (existsb _ _); lia|].
  split; [destruct (existsb _ _); auto|].
  split; [destruct (night_rule_cases (repeat_rule base (Counter coords))
                      (Z.of_nat (length (night_points locations_data)))
                      (length locations_data)) as [-> | ->]; [left|right]; lia|].
  split.
  - intros Hshort. destruct (existsb _ _) eqn:Hex; [|done].
    apply existsb_exists in Hex as ([k n] & Hin%list_elem_of_In & Hn%Nat.ltb_lt).
    apply Counter_count_le in Hin. apply for_each_length in Hcoords.
    simpl in Hn. lia.
  - intros Hnan. destruct (Counter_spec coords Hnan) as (Hcount & Hcover & _).
    split.
    + destruct (existsb _ _) eqn:Hex; [intros _|done].
      apply existsb_exists in Hex as ([k n] & Hin%list_elem_of_In & Hn%Nat.ltb_lt).
      destruct (Hcount k n Hin) as [-> ?]. by exists k.
    + intros (k & Hk & Hmany).
      destruct (Hcover k Hk) as (k' & n' & Hin & Heq).
      assert (existsb (λ kc, (3 <? kc.2)%nat) (Counter coords) = true) as ->;
        [|done].
      apply existsb_exists. exists (k', n'). split; [by apply list_elem_of_In|].
      apply Nat.ltb_lt. destruct (Hcount k' n' Hin) as [-> _]. simpl.
      unfold occurrences in *.
      by rewrite (List.filter_ext _ _ (λ c, bucket_eqb_class k' k c Heq)).
Qed.

Lemma coordinate_valid_coordinates p :
  coordinate_valid p = true →
  ∃ lat lon, coordinates p = Ok (VFloat lat, VFloat lon).
Proof.
  unfold coordinate_valid, coordinates, getitem, get.
  destruct (p !! "latitude") as [[|lat|]|]; simpl; try done.
  destruct (p !! "longitude") as [[|lon|]|]; simpl; try done.
  by exists lat, lon.
Qed.

Lemma coordinate_valid_bucket p :
  coordinate_valid p = true → ∃ b, bucket p = Ok b.
Proof.
  unfold coordinate_valid, bucket, getitem, get.
  destruct (p !! "latitude") as [[|lat|]|]; simpl; try done.
  destruct (p !! "longitude") as [[|lon|]|]; simpl; try done.
  by eexists.
Qed.

Lemma index_lt {A} (l : list A) i :
  (i < length l)%nat → ∃ a, index l i = Ok a ∧ a ∈ l.
Proof.
  intros [a Ha]%lookup_lt_is_Some_2. exists a. unfold index. rewrite Ha.
  split; [done|]. by eapply list_elem_of_lookup_2.
Qed.

(** The distance loop ends when the distance of every pair it meets is
    defined. *)
Lemma distance_loop_total valid_data st start n :
  (start + n < length valid_data ∨ n = 0)%nat →
  (∀ p q, p ∈ valid_data → q ∈ valid_data →
          ∃ c1 c2 d, coordinates p = Ok c1 ∧ coordinates q = Ok c2
                     ∧ geodesic_km c1 c2 = Ok d) →
  ∃ st', for_fold (distance_step valid_data) st (seq start n) = Ok st'.
Proof.
  intros Hrange Hpairs. revert st start Hrange.
  induction n as [|n IH]; intros st start Hrange; [by eexists|].
  destruct Hrange as [Hrange|]; [|done]. cbn [seq for_fold].
  destruct (index_lt valid_data start) as (a & Ha & Hina); [lia|].
  destruct (index_lt valid_data (start + 1)) as (b & Hb & Hinb); [lia|].
  destruct (Hpairs a b Hina Hinb) as (c1 & c2 & d & Hc1 & Hc2 & Hd).
  assert (∃ st1, distance_step valid_data st start = Ok st1) as [st1 ->].
  { unfold distance_step. rewrite Ha. cbn [mbind result_bind].
    rewrite Hc1. cbn [mbind result_bind]. rewrite Hb. cbn [mbind result_bind].
    rewrite Hc2. cbn [mbind result_bind]. rewrite Hd. by eexists. }
  cbn [mbind result_bind]. apply IH. left. lia.
Qed.

Lemma sorted_data_subset locations_data sorted_data :
  try_except
    (sorted dt_lt datetime_key
       (List.filter (λ loc, truthy (get loc "datetime")) locations_data))
    (λ _, mret locations_data) = Ok sorted_data →
  ∀ p, p ∈ sorted_data → p ∈ locations_data.
Proof.
  unfold try_except.
  destruct (sorted dt_lt datetime_key _) as [sp|] eqn:Hsorted.
  - intros [= <-] p Hp. apply sorted_Ok in Hsorted as [Hperm _].
    rewrite Hperm in Hp.
    by apply list_elem_of_In, filter_In in Hp as [?%list_elem_of_In _].
  - by intros [= <-].
Qed.

Lemma distance_score_total locations_data :
  (∀ p q, p ∈ locations_data → q ∈ locations_data →
          ∃ c1 c2 d, coordinates p = Ok c1 ∧ coordinates q = Ok c2
                     ∧ geodesic_km c1 c2 = Ok d) →
  ∃ base, distance_score locations_data = Ok base.
Proof.
  intros Hpairs. unfold distance_score.
  destruct (try_except _ _) as [sorted_data|] eqn:Hsd; cycle 1.
  { unfold try_except in Hsd. by destruct (sorted dt_lt datetime_key _). }
  cbn [mbind result_bind].
  destruct (distance_loop_total (List.filter has_coordinates sorted_data)
              (0%float, 0%float) 0
              (length (List.filter has_coordinates sorted_data) - 1))
    as [st ->]; [lia| |by eexists].
  intros p q Hp Hq. apply Hpairs; eapply sorted_data_subset; try done.
  - by apply list_elem_of_In, filter_In in Hp as [?%list_elem_of_In _].
  - by apply list_elem_of_In, filter_In in Hq as [?%list_elem_of_In _].
Qed.

(** [calculate_risk_score] returns when every point falls in a bucket and
    the distance of any two points is defined. *)
Lemma calculate_risk_score_total locations_data :
  (∀ p q, p ∈ locations_data → q ∈ locations_data →
          ∃ c1 c2 d, coordinates p = Ok c1 ∧ coordinates q = Ok c2
                     ∧ geodesic_km c1 c2 = Ok d) →
  Forall (λ p, ∃ b, bucket p = Ok b) locations_data →
  ∃ r, calculate_risk_score locations_data = Ok r.
Proof.
  intros Hgeo Hbuckets.
  destruct locations_data as [|loc l]; [by eexists|].
  unfold calculate_risk_score. rewrite score_before_night_split.
  destruct (distance_score_total (loc :: l) Hgeo) as [base ->].
  destruct (for_each_total bucket (loc :: l) Hbuckets) as [coords ->].
  by eexists.
Qed.

(** X7. When every input point has numeric coordinates, as the callers in
    app.py see to, and the distance between the coordinates of any two
    input points is defined, [calculate_risk_score] returns, whatever the
    timestamps are: missing, not parseable, or not comparable. *)
Theorem risk_score_returns locations_data :
  Forall (λ p, coordinate_valid p = true) locations_data →
  (∀ p q c1 c2, p ∈ locations_data → q ∈ locations_data →
                coordinates p = Ok c1 → coordinates q = Ok c2 →
                ∃ d, geodesic_km c1 c2 = Ok d) →
  ∃ r, calculate_risk_score locations_data = Ok r.
Proof.
  intros Hvalid Hgeo. apply calculate_risk_score_total.
  - rewrite Forall_forall in Hvalid. intros p q Hp Hq.
    destruct (coordinate_valid_coordinates p (Hvalid p Hp)) as (la & lo & Hc1).
    destruct (coordinate_valid_coordinates q (Hvalid q Hq)) as (la' & lo' & Hc2).
    destruct (Hgeo p q _ _ Hp Hq Hc1 Hc2) as [d Hd]. by eexists _, _, d.
  - eapply Forall_impl; [exact Hvalid|]. apply coordinate_valid_bucket.
Qed.

Lemma falsy_not_time_valid p :
  (∀ d, parse_str EmptyString ≠ Ok d) →
  truthy (get p "datetime") = false → time_valid p = false.
Proof.
  intros Hempty Hfalsy. destruct (time_valid p) eqn:Hvalid; [|done].
  by rewrite (time_valid_truthy p Hempty Hvalid) in Hfalsy.
Qed.

(** X8. An input in which no point has a timestamp (none, or an empty
    one) never scores for distance, jump or night: whenever
    [calculate_risk_score] returns on it, the score is 0 or 15 and the level
    is Low. The distance rules only see the points that have a timestamp. *)
Theorem no_timestamps_low_risk locations_data r :
  (∀ d, parse_str EmptyString ≠ Ok d) →
  Forall (λ p, truthy (get p "datetime") = false) locations_data →
  calculate_risk_score locations_data = Ok r →
  distance_score locations_data = Ok 0
  ∧ (risk_score r = 0 ∨ risk_score r = 15)
  ∧ risk_level r = "Low".
Proof.
  intros Hempty Hnone (before & Hbefore & Hscore & Hlevel)%calculate_risk_score_Ok.
  assert (distance_score locations_data = Ok 0) as Hdist.
  { unfold distance_score. by rewrite (filter_none _ _ Hnone). }
  split; [done|].
  rewrite score_before_night_split, Hdist in Hbefore. cbn [mbind result_bind] in Hbefore.
  destruct (for_each bucket locations_data) as [coords|]; [|done].
  injection Hbefore as <-.
  assert (night_points locations_data = []) as Hnight.
  { apply filter_none. eapply Forall_impl; [exact Hnone|]. intros p Hp. simpl.
    pose proof (falsy_not_time_valid p Hempty Hp) as Hinvalid.
    unfold time_valid in Hinvalid. by destruct (datetime_key p). }
  assert (risk_score r = repeat_rule 0 (Counter coords)) as Hr.
  { rewrite Hscore, Hnight. unfold night_rule. simpl.
    destruct (length locations_data) as [|n]; [done|].
    by replace (0.5 <? int_truediv 0 (Z.of_nat (S n)))%float with false. }
  rewrite Hlevel, Hr. unfold repeat_rule.
  destruct (existsb _ _); by auto.
Qed.

(** C5. The night rule is not reached on an input with a point that
    lacks a number as latitude or as longitude: whatever the share of night
    points, [calculate_risk_score] raises there, at the latest when it
    rounds the coordinates of all the input points for the repeated visits,
    so no 20 are contributed. Where the function returns, the rule is as the
    claim states it ([night_rule_contribution]). *)
Theorem night_rule_unreached locations_data p :
  p ∈ locations_data → coordinate_valid p = false →
  ∃ e, calculate_risk_score locations_data = Raise e.
Proof.
  intros Hp Hinvalid.
  assert (∃ e, bucket p = Raise e) as [e He].
  { destruct (bucket p) as [b|e] eqn:Hb; [|by eexists].
    apply bucket_Ok in Hb. by rewrite Hb in Hinvalid. }
  destruct (for_each_Raise bucket _ _ _ Hp He) as [e' Hcoords].
  destruct locations_data as [|loc l]; [by apply elem_of_nil in Hp|].
  unfold calculate_risk_score. rewrite score_before_night_split, Hcoords.
  destruct (distance_score (loc :: l)); by eexists.
Qed.

(** ** More on the travel statistics *)

Lemma filter_all {A} (f : A → bool) (l : list A) :
  Forall (λ a, f a = true) l → List.filter f l = l.
Proof. induction 1 as [|a l Ha _ IH]; [done|]. simpl. by rewrite Ha, IH. Qed.

Lemma generate_travel_statistics_Ok locations_data r :
  locations_data ≠ [] →
  generate_travel_statistics locations_data = Ok r →
  ∃ total_distance coords label,
    distance_sum locations_data = Ok (total_distance, total_movements r)
    ∧ for_each bucket (List.filter has_coordinates locations_data) = Ok coords
    ∧ most_visited locations_data (Counter coords) = Ok label
    ∧ total_distance_km r = py_round total_distance 2
    ∧ unique_locations_count r = length (Counter coords)
    ∧ most_visited_location r = label
    ∧ average_movement_km r
      = py_round (avg_movement total_distance (total_movements r)) 2.
Proof.
  intros Hne. destruct locations_data as [|loc l]; [done|].
  unfold generate_travel_statistics.
  destruct (distance_sum (loc :: l)) as [[total_distance movements]|];
    cbn [mbind result_bind]; [|discriminate].
  destruct (for_each bucket _) as [coords|] eqn:Hcoords;
    cbn [mbind result_bind]; [|discriminate].
  destruct (most_visited _ _) as [label|] eqn:Hlabel;
    cbn [mbind result_bind]; [|discriminate].
  intros [= <-]. by exists total_distance, coords, label.
Qed.

(** X9. When no input point has both coordinates (the empty input
    included), [generate_travel_statistics] returns the record of the empty
    input: no distance, no location, "None" as the most visited one. *)
Theorem no_coordinates_default_statistics locations_data :
  Forall (λ p, has_coordinates p = false) locations_data →
  generate_travel_statistics locations_data
  = Ok {| total_distance_km := 0; unique_locations_count := 0;
          most_visited_location := "None"; average_movement_km := 0;
          total_movements := 0 |}.
Proof.
  intros Hnone. destruct locations_data as [|loc l]; [done|].
  unfold generate_travel_statistics, distance_sum.
  by rewrite (filter_none _ _ Hnone).
Qed.

(** X10. Whenever [generate_travel_statistics] returns,
    [unique_locations_count] is at most the number k of coordinate-valid
    input points and at least 1 when there is such a point; and with at most
    one such point the distance and the average are 0 and the count is k. *)
Theorem unique_locations_bounds locations_data r :
  generate_travel_statistics locations_data = Ok r →
  (unique_locations_count r
   ≤ length (List.filter coordinate_valid locations_data))%nat
  ∧ ((0 < length (List.filter coordinate_valid locations_data))%nat →
     (0 < unique_locations_count r)%nat)
  ∧ ((length (List.filter coordinate_valid locations_data) ≤ 1)%nat →
     total_distance_km r = 0%float ∧ average_movement_km r = 0%float
     ∧ unique_locations_count r
       = length (List.filter coordinate_valid locations_data)).
Proof.
  destruct (decide (locations_data = [])) as [->|Hne].
  { intros [= <-]. simpl. repeat split; lia. }
  intros (td & coords & label & Hsum & Hcoords & _ & Htd & Hunique & _ & Havg)
    %generate_travel_statistics_Ok; [|done].
  pose proof Hsum as Hsum'. unfold distance_sum in Hsum'.
  pose proof (valid_points_coordinate_valid _ _ Hcoords) as Hvalid.
  rewrite Hvalid in Hcoords, Hsum'.
  pose proof (for_each_length _ _ _ Hcoords) as Hlen.
  destruct (Counter_length coords) as [Hle Hnonempty].
  rewrite Hunique, <- Hlen.
  split; [done|]. split.
  - intros Hpos. destruct (Counter coords) eqn:HC; [|simpl; lia].
    destruct coords; [simpl in Hpos; lia|]. by destruct Hnonempty.
  - intros Hk.
    replace (length (List.filter coordinate_valid locations_data) - 1)%nat
      with 0%nat in Hsum' by lia.
    injection Hsum' as <- Hm. rewrite Htd, Havg, <- Hm.
    split; [done|]. split; [done|].
    destruct coords as [|c [|c' coords]]; [done| |simpl in Hk; lia].
    destruct (Counter [c]) eqn:HC; [by destruct Hnonempty|].
    simpl in *. lia.
Qed.

Lemma most_common_spec best c :
  most_common best c ∈ best :: c
  ∧ ∀ kc, kc ∈ best :: c → (kc.2 ≤ (most_common best c).2)%nat.
Proof.
  revert best. induction c as [|kc c IH]; intros best; simpl.
  - split; [by left|]. by intros ? ->%list_elem_of_singleton.
  - destruct (IH (if (best.2 <? kc.2)%nat then kc else best)) as [Hin Hmax].
    destruct (best.2 <? kc.2)%nat eqn:Hlt.
    + apply Nat.ltb_lt in Hlt. split.
      * apply elem_of_cons in Hin as [->|Hin]; [by right; left|by do 2 right].
      * intros kc' [->|Hin']%elem_of_cons; [|by apply Hmax].
        specialize (Hmax kc (list_elem_of_here _ _)). lia.
    + apply Nat.ltb_ge in Hlt. split.
      * apply elem_of_cons in Hin as [->|Hin]; [by left|by do 2 right].
      * intros kc' [->|[->|Hin']%elem_of_cons]%elem_of_cons.
        -- apply Hmax. by left.
        -- specialize (Hmax best (list_elem_of_here _ _)). lia.
        -- apply Hmax. by right.
Qed.

(** What the search for a landmark returns: a non-empty name is the name
    of an input point of the winning bucket; an empty one means that no
    point of that bucket has a name. *)
Lemma find_landmark_spec top_coord landmark_name l found :
  truthy landmark_name = false →
  find_landmark top_coord landmark_name l = Ok found →
  if truthy found
  then ∃ p b, p ∈ l ∧ bucket p = Ok b ∧ bucket_eqb b top_coord = true
              ∧ get p "landmark_name" = found
  else ∀ p b, p ∈ l → bucket p = Ok b → bucket_eqb b top_coord = true →
              truthy (get p "landmark_name") = false.
Proof.
  revert landmark_name found.
  induction l as [|loc l IH]; intros name found Hname.
  - intros [= <-]. rewrite Hname. by intros ?? ?%elem_of_nil.
  - cbn [find_landmark].
    assert (∀ name', truthy name' = false →
              find_landmark top_coord name' l = Ok found →
              (∀ b, bucket loc = Ok b → bucket_eqb b top_coord = true →
                    truthy (get loc "landmark_name") = false) →
              if truthy found
              then ∃ p b, p ∈ loc :: l ∧ bucket p = Ok b
                          ∧ bucket_eqb b top_coord = true
                          ∧ get p "landmark_name" = found
              else ∀ p b, p ∈ loc :: l → bucket p = Ok b →
                          bucket_eqb b top_coord = true →
                          truthy (get p "landmark_name") = false) as Hskip.
    { intros name' Hname' Hv Hloc. specialize (IH name' found Hname' Hv).
      destruct (truthy found).
      - destruct IH as (p & b & ? & ?). exists p, b. split; [by right|done].
      - intros p b [->|Hp]%elem_of_cons; [apply Hloc|by apply IH]. }
    unfold bucket in Hskip at 1. unfold bucket_eqb in Hskip at 1.
    destruct (getitem loc "latitude") as [lat|] eqn:Hglat; [|done].
    cbn [mbind result_bind] in *.
    destruct (round_val lat 4) as [rlat|] eqn:Hrlat; [|done].
    cbn [mbind result_bind] in *.
    destruct (rlat =? top_coord.1)%float eqn:Hlat.
    + destruct (getitem loc "longitude") as [lon|] eqn:Hglon; [|done].
      cbn [mbind result_bind] in *.
      destruct (round_val lon 4) as [rlon|] eqn:Hrlon; [|done].
      cbn [mbind result_bind] in *.
      destruct (rlon =? top_coord.2)%float eqn:Hlon.
      * destruct (truthy (get loc "landmark_name")) eqn:Hloc.
        -- intros [= <-]. rewrite Hloc. exists loc, (rlat, rlon).
           split; [by left|]. split.
           ++ unfold bucket. rewrite Hglat. cbn [mbind result_bind].
              rewrite Hrlat. cbn [mbind result_bind]. rewrite Hglon.
              cbn [mbind result_bind]. by rewrite Hrlon.
           ++ split; [|done]. unfold bucket_eqb. simpl. by rewrite Hlat, Hlon.
        -- intros Hv. by apply (Hskip _ Hloc Hv).
      * intros Hv. apply (Hskip _ Hname Hv). intros b [= <-]. simpl.
        by rewrite Hlat, Hlon.
    + intros Hv. apply (Hskip _ Hname Hv). intros b.
      destruct (getitem loc "longitude") as [lon|]; [|done].
      cbn [mbind result_bind].
      destruct (round_val lon 4) as [rlon|]; [|done].
      intros [= <-]. simpl. by rewrite Hlat.
Qed.

(** X11. The most visited location: the winning bucket holds the largest
    number of points (no NaN among the rounded coordinates), the text gets
    the suffix with that number only when it exceeds 1, and the label is a
    landmark name of an input point of that bucket when there is a non-empty
    one, the rounded coordinates otherwise. *)
Theorem most_visited_is_largest_bucket locations_data r coords :
  generate_travel_statistics locations_data = Ok r →
  for_each bucket (List.filter has_coordinates locations_data) = Ok coords →
  coords ≠ [] →
  Forall (λ k, bucket_eqb k k = true) coords →
  ∃ top count landmark_name,
    top ∈ coords ∧ count = occurrences top coords
    ∧ (∀ k, k ∈ coords → (occurrences k coords ≤ count)%nat)
    ∧ find_landmark top VNone locations_data = Ok landmark_name
    ∧ (if truthy landmark_name
       then ∃ p b, p ∈ locations_data ∧ bucket p = Ok b
                   ∧ bucket_eqb b top = true
                   ∧ get p "landmark_name" = landmark_name
       else ∀ p b, p ∈ locations_data → bucket p = Ok b →
                   bucket_eqb b top = true →
                   truthy (get p "landmark_name") = false)
    ∧ most_visited_location r
      = (let loc_str :=
           if truthy landmark_name then format_val landmark_name
           else "Lat: " +:+ float_str top.1 +:+ ", Lng: " +:+ float_str top.2 in
         if (1 <? count)%nat
         then loc_str +:+ " (" +:+ pretty count +:+ " visits)"
         else loc_str).
Proof.
  intros Hr Hcoords Hne Hnonnan.
  assert (locations_data ≠ []) as Hne'.
  { intros ->. simpl in Hcoords. by injection Hcoords as <-. }
  apply generate_travel_statistics_Ok in Hr
    as (_ & coords' & label & _ & Hcoords' & Hlabel & _ & _ & -> & _);
    [|done].
  rewrite Hcoords in Hcoords'. injection Hcoords' as <-.
  destruct (Counter_spec coords Hnonnan) as (Hcount & Hcover & _).
  destruct (Counter_length coords) as [_ Hnonempty].
  unfold most_visited in Hlabel.
  destruct (Counter coords) as [|kc c] eqn:HC; [by destruct Hnonempty|].
  destruct (most_common_spec kc c) as [Hin Hmax].
  destruct (most_common kc c) as [top count].
  destruct (find_landmark top VNone locations_data) as [landmark_name|]
    eqn:Hfind; cbn [mbind result_bind] in Hlabel; [|discriminate].
  destruct (Hcount top count Hin) as [-> Htop].
  exists top, (occurrences top coords), landmark_name.
  split; [done|]. split; [done|]. split.
  - intros k Hk. destruct (Hcover k Hk) as (k' & n' & Hin' & Heq).
    destruct (Hcount k' n' Hin') as [-> _].
    specialize (Hmax _ Hin'). simpl in Hmax.
    unfold occurrences in *.
    by rewrite <- (List.filter_ext _ _ (λ c, bucket_eqb_class k' k c Heq)).
  - split; [done|]. split.
    + by apply (find_landmark_spec top VNone).
    + simpl. by destruct (1 <? occurrences top coords)%nat;
        injection Hlabel as <-.
Qed.

Lemma find_landmark_total top_coord landmark_name l :
  Forall (λ p, coordinate_valid p = true) l →
  ∃ found, find_landmark top_coord landmark_name l = Ok found.
Proof.
  intros Hall. revert landmark_name.
  induction Hall as [|loc l Hloc _ IH]; intros name; [by eexists|].
  cbn [find_landmark]. revert Hloc.
  unfold coordinate_valid, getitem, get.
  destruct (loc !! "latitude") as [[|lat|]|]; simpl; try done.
  destruct (loc !! "longitude") as [[|lon|]|]; simpl; try done.
  intros _. destruct (_ =? _)%float; [|apply IH]. simpl.
  destruct (_ =? _)%float; [|apply IH].
  destruct (truthy _); [by eexists|apply IH].
Qed.

(** The loop over the neighbours ends when the distance of every pair of
    neighbours is defined. *)
Lemma movement_loop_total valid_points st start n :
  (start + n < length valid_points ∨ n = 0)%nat →
  Forall (λ p, coordinate_valid p = true) valid_points →
  (∀ i a b c1 c2, valid_points !! i = Some a →
                  valid_points !! S i = Some b →
                  coordinates a = Ok c1 → coordinates b = Ok c2 →
                  ∃ d, haversine c1 c2 = Ok d) →
  ∃ st', for_fold (movement_step valid_points) st (seq start n) = Ok st'.
Proof.
  intros Hrange Hvalid Hpairs. revert st start Hrange.
  induction n as [|n IH]; intros st start Hrange; [by eexists|].
  destruct Hrange as [Hrange|]; [|done]. cbn [seq for_fold].
  destruct (lookup_lt_is_Some_2 valid_points start) as [a Ha]; [lia|].
  destruct (lookup_lt_is_Some_2 valid_points (S start)) as [b Hb]; [lia|].
  rewrite Forall_forall in Hvalid.
  destruct (coordinate_valid_coordinates a) as (lat1 & lon1 & Hc1).
  { apply Hvalid. by eapply list_elem_of_lookup_2. }
  destruct (coordinate_valid_coordinates b) as (lat2 & lon2 & Hc2).
  { apply Hvalid. by eapply list_elem_of_lookup_2. }
  destruct (Hpairs _ _ _ _ _ Ha Hb Hc1 Hc2) as [d Hd].
  assert (∃ st1, movement_step valid_points st start = Ok st1) as [st1 ->].
  { unfold movement_step, index. rewrite Ha. cbn [mbind result_bind].
    rewrite Hc1. cbn [mbind result_bind].
    replace (start + 1)%nat with (S start) by lia. rewrite Hb.
    cbn [mbind result_bind]. rewrite Hc2. cbn [mbind result_bind].
    rewrite Hd. by eexists. }
  cbn [mbind result_bind]. apply IH. left. lia.
Qed.

(** [generate_travel_statistics] returns on points with numbers as
    coordinates, the distance of neighbours being defined. *)
Lemma generate_travel_statistics_total locations_data :
  Forall (λ p, coordinate_valid p = true) locations_data →
  (∀ i a b c1 c2, locations_data !! i = Some a →
                  locations_data !! S i = Some b →
                  coordinates a = Ok c1 → coordinates b = Ok c2 →
                  ∃ d, haversine c1 c2 = Ok d) →
  ∃ r, generate_travel_statistics locations_data = Ok r.
Proof.
  intros Hvalid Hpairs.
  destruct locations_data as [|loc l]; [by eexists|].
  assert (List.filter has_coordinates (loc :: l) = loc :: l) as Hfilter.
  { apply filter_all. eapply Forall_impl; [exact Hvalid|].
    apply coordinate_valid_has_coordinates. }
  destruct (movement_loop_total (loc :: l) (0%float, 0%nat) 0
              (length (loc :: l) - 1)) as [[td m] Hloop];
    [simpl; lia|done|done|].
  destruct (for_each_total bucket (loc :: l)) as [coords Hcoords].
  { eapply Forall_impl; [exact Hvalid|]. apply coordinate_valid_bucket. }
  unfold generate_travel_statistics, distance_sum. rewrite Hfilter.
  rewrite Hloop. cbn [mbind result_bind]. rewrite Hcoords.
  cbn [mbind result_bind].
  assert (∃ label, most_visited (loc :: l) (Counter coords) = Ok label)
    as [label ->].
  { unfold most_visited. destruct (Counter coords) as [|kc c]; [by eexists|].
    destruct (most_common kc c) as [top count].
    destruct (find_landmark_total top VNone (loc :: l) Hvalid) as [v ->].
    cbn [mbind result_bind]. destruct (1 <? count)%nat; by eexists. }
  by eexists.
Qed.

(** X12. [generate_travel_statistics] returns on the inputs its callers
    pass: every point with two numbers as coordinates, and the haversine
    distance of every two neighbours defined. The number of movements is
    then the number of points less one. *)
Theorem statistics_return locations_data :
  Forall (λ p, coordinate_valid p = true) locations_data →
  (∀ i a b c1 c2, locations_data !! i = Some a →
                  locations_data !! S i = Some b →
                  coordinates a = Ok c1 → coordinates b = Ok c2 →
                  ∃ d, haversine c1 c2 = Ok d) →
  ∃ r, generate_travel_statistics locations_data = Ok r
       ∧ total_movements r = (length locations_data - 1)%nat.
Proof.
  intros Hvalid Hpairs.
  destruct (generate_travel_statistics_total _ Hvalid Hpairs) as [r Hr].
  exists r. split; [done|].
  destruct locations_data as [|loc l]; [by injection Hr as <-|].
  apply generate_travel_statistics_Ok in Hr as (td & _ & _ & Hsum & _);
    [|done].
  unfold distance_sum in Hsum.
  rewrite (filter_all has_coordinates (loc :: l)) in Hsum.
  - apply movement_loop_count in Hsum. simpl in Hsum. simpl. lia.
  - eapply Forall_impl; [exact Hvalid|].
    apply coordinate_valid_has_coordinates.
Qed.

(** ** The extraction of the metadata *)

(** X13. [_get_decimal_from_dms] never lets the ZeroDivisionError of its
    [try] out: on three components it raises exactly when one of them is a
    tuple with a zero denominator, and then a TypeError, from the [float]
    of the handler; with fewer than three components it raises an
    IndexError. *)
Theorem dms_conversion_error dms ref :
  match dms with
  | degrees :: minutes :: seconds :: _ =>
      if existsb zero_denominator [degrees; minutes; seconds]
      then _get_decimal_from_dms dms ref = Raise TypeError
      else ∃ decimal, _get_decimal_from_dms dms ref = Ok decimal
  | _ => _get_decimal_from_dms dms ref = Raise IndexError
  end.
Proof.
  destruct dms as [|degrees [|minutes [|seconds dms]]]; try done.
  unfold _get_decimal_from_dms, index, existsb, zero_denominator.
  cbn [lookup list_lookup mbind result_bind].
  destruct degrees as [a1 b1|x1], minutes as [a2 b2|x2],
    seconds as [a3 b3|x3];
    unfold rational_value, float_of, float_truediv, try_except;
    repeat match goal with
           | |- context [(?b =? 0)%float] => destruct (b =? 0)%float
           end;
    cbn; try done; by eexists.
Qed.

Lemma dms_decimal_Ok dms ref decimal :
  _get_decimal_from_dms dms ref = Ok decimal →
  ∃ north, (∀ ref', _get_decimal_from_dms dms ref'
                    = Ok (if bool_decide (ref' ∈ ["S"; "W"])
                          then (- north)%float else north)).
Proof.
  unfold _get_decimal_from_dms.
  destruct (index dms 0) as [degrees|]; cbn [mbind result_bind]; [|done].
  destruct (index dms 1) as [minutes|]; cbn [mbind result_bind]; [|done].
  destruct (index dms 2) as [seconds|]; cbn [mbind result_bind]; [|done].
  destruct (try_except _ _) as [[[deg min_val] sec]|];
    cbn [mbind result_bind]; [|done].
  intros _. by eexists.
Qed.

(** X14. The reference only sets the sign: the conversion raises for all
    references or for none, S and W give the opposite of what any other
    reference gives, and the absolute value is the same for all. *)
Theorem south_and_west_negated dms ref ref' :
  ref ∈ ["S"; "W"] → ref' ∉ ["S"; "W"] →
  _get_decimal_from_dms dms ref
  = (λ decimal, (- decimal)%float) <$> _get_decimal_from_dms dms ref'
  ∧ abs <$> _get_decimal_from_dms dms ref
    = abs <$> _get_decimal_from_dms dms ref'.
Proof.
  intros Hsouth Hnorth.
  destruct (_get_decimal_from_dms dms ref') as [decimal|e] eqn:Href'.
  - destruct (dms_decimal_Ok _ _ _ Href') as [north Hall].
    rewrite Hall in Href'. rewrite Hall.
    rewrite bool_decide_false in Href' by done. injection Href' as <-.
    rewrite bool_decide_true by done. cbn. by rewrite abs_opp.
  - destruct (_get_decimal_from_dms dms ref) as [decimal|e'] eqn:Href.
    + destruct (dms_decimal_Ok _ _ _ Href) as [north Hall].
      by rewrite Hall in Href'.
    + revert Href Href'. unfold _get_decimal_from_dms.
      destruct (index dms 0) as [degrees|]; cbn [mbind result_bind];
        [|by intros [= <-] [= <-]].
      destruct (index dms 1) as [minutes|]; cbn [mbind result_bind];
        [|by intros [= <-] [= <-]].
      destruct (index dms 2) as [seconds|]; cbn [mbind result_bind];
        [|by intros [= <-] [= <-]].
      destruct (try_except _ _) as [[[deg min_val] sec]|];
        cbn [mbind result_bind]; [done|].
      by intros [= <-] [= <-].
Qed.

Lemma substring_all s : String.substring 0 (String.length s) s = s.
Proof. clear. induction s as [|c s IH]; [done|]. simpl. by rewrite IH. Qed.

(** The two cases of the date of [extract_metadata]. *)
Lemma iso_date_str_cases date_str :
  (iso_date_str date_str = date_str
   ∧ ¬ ((10 ≤ String.length date_str)%nat
        ∧ String.get 4 date_str = Some ":"%char
        ∧ String.get 7 date_str = Some ":"%char))
  ∨ ∃ c0 c1 c2 c3 c5 c6 c8 c9 rest,
      date_str
      = String c0 (String c1 (String c2 (String c3 (String ":" (String c5
          (String c6 (String ":" (String c8 (String c9 rest)))))))))
      ∧ iso_date_str date_str
        = String c0 (String c1 (String c2 (String c3 (String "-" (String c5
            (String c6 (String "-" (String c8 (String c9 rest))))))))).
Proof.
  clear.
  unfold iso_date_str.
  destruct (10 <=? String.length date_str)%nat eqn:Hlen; cbn [andb];
    [|left; split; [done|]; apply Nat.leb_gt in Hlen; lia].
  case_bool_decide as H4; cbn [andb]; [|left; split; [done|tauto]].
  case_bool_decide as H7; cbn [andb]; [|left; split; [done|tauto]].
  right.
  destruct date_str as [|c0 [|c1 [|c2 [|c3 [|c4 [|c5 [|c6 [|c7 [|c8 [|c9 rest]
    ]]]]]]]]]; try done.
  simpl in H4, H7. injection H4 as ->. injection H7 as ->.
  exists c0, c1, c2, c3, c5, c6, c8, c9, rest. split; [done|].
  cbn. by rewrite substring_all.
Qed.

(** X15. The date [extract_metadata] writes: as long as the text of
    [DateTimeOriginal], equal to it but for a colon at index 4 and at
    index 7, which become hyphens when both are there and the text has ten
    characters or more; and a date written this way is left as it is. *)
Theorem iso_date_str_spec date_str :
  String.length (iso_date_str date_str) = String.length date_str
  ∧ iso_date_str (iso_date_str date_str) = iso_date_str date_str
  ∧ (∀ i, String.get i (iso_date_str date_str) ≠ String.get i date_str →
          (i = 4 ∨ i = 7)%nat ∧ String.get i date_str = Some ":"%char
          ∧ String.get i (iso_date_str date_str) = Some "-"%char)
  ∧ ((10 ≤ String.length date_str)%nat →
     String.get 4 date_str = Some ":"%char →
     String.get 7 date_str = Some ":"%char →
     String.get 4 (iso_date_str date_str) = Some "-"%char
     ∧ String.get 7 (iso_date_str date_str) = Some "-"%char).
Proof.
  clear.
  destruct (iso_date_str_cases date_str)
    as [[Heq Hnot]|(c0 & c1 & c2 & c3 & c5 & c6 & c8 & c9 & rest & -> & ->)].
  - rewrite !Heq. split; [done|]. split; [done|]. split; [done|]. tauto.
  - split; [done|]. split; [done|]. split; [|done].
    intros i. do 10 (destruct i as [|i]; [cbn; try done; auto|]). by cbn.
Qed.

(** What [metadata_of] returns: no coordinates, or both as numbers. *)
Lemma metadata_of_Ok exif_data result :
  metadata_of exif_data = Ok result →
  (get (entries result) "latitude" = VNone
   ∧ get (entries result) "longitude" = VNone
   ∧ get (entries result) "source" = VStr "None"
   ∧ get (entries result) "landmark_name" = VNone
   ∧ (has_exif result = false → get (entries result) "datetime" = VNone))
  ∨ (∃ lat lon, get (entries result) "latitude" = VFloat lat
                ∧ get (entries result) "longitude" = VFloat lon
                ∧ get (entries result) "source" = VStr "EXIF"
                ∧ get (entries result) "landmark_name" = VNone
                ∧ has_exif result = true).
Proof.
  unfold metadata_of. destruct (exif_empty exif_data).
  { intros [= <-]. left. by vm_compute. }
  destruct (GPSInfo exif_data ≫= gps_entries)
    as [[[[lat_dms lat_ref] lon_dms] lon_ref]|].
  - destruct (_get_decimal_from_dms lat_dms lat_ref) as [lat|];
      cbn [mbind result_bind]; [|done].
    destruct (_get_decimal_from_dms lon_dms lon_ref) as [lon|];
      cbn [mbind result_bind]; [|done].
    intros [= <-]. right. exists lat, lon.
    by destruct (DateTimeOriginal exif_data).
  - intros [= <-]. left. by destruct (DateTimeOriginal exif_data).
Qed.

(** X16. [extract_metadata] never returns half a position: latitude and
    longitude are both None or both numbers, they are numbers exactly when
    the source is "EXIF", and then [has_exif] is set. When [has_exif] is
    not set there is no date either: a date that was read is dropped when
    the conversion of a coordinate fails. *)
Theorem metadata_coordinates_together image :
  let result := entries (extract_metadata image) in
  ((get result "latitude" = VNone ∧ get result "longitude" = VNone)
   ∨ ∃ lat lon, get result "latitude" = VFloat lat
                ∧ get result "longitude" = VFloat lon)
  ∧ (coordinate_valid result = true ↔ get result "source" = VStr "EXIF")
  ∧ (coordinate_valid result = true → has_exif (extract_metadata image) = true)
  ∧ (has_exif (extract_metadata image) = false →
     get result "datetime" = VNone)
  ∧ get result "landmark_name" = VNone.
Proof.
  unfold extract_metadata, coordinate_valid.
  destruct image as [exif_data|message];
    [|split; [left|]; by vm_compute].
  destruct (metadata_of exif_data) as [result|e] eqn:Hresult;
    [|split; [left|]; by vm_compute].
  cbn zeta.
  destruct (metadata_of_Ok _ _ Hresult)
    as [(-> & -> & -> & -> & Hdate)|(lat & lon & -> & -> & -> & -> & Hexif)].
  - split; [by left|]. by repeat split.
  - split; [right; by exists lat, lon|]. rewrite Hexif. by repeat split.
Qed.

Lemma analytics_point_Some image p :
  analytics_point (extract_metadata image) = Some p →
  coordinate_valid p = true ∧ get p "source" = VStr "EXIF"
  ∧ get p "landmark_name" = VNone
  ∧ get p "latitude" = get (entries (extract_metadata image)) "latitude"
  ∧ get p "longitude" = get (entries (extract_metadata image)) "longitude"
  ∧ get p "datetime" = get (entries (extract_metadata image)) "datetime".
Proof.
  unfold analytics_point, extract_metadata.
  destruct image as [exif_data|message]; [|by vm_compute].
  destruct (metadata_of exif_data) as [result|e] eqn:Hresult; [|by vm_compute].
  destruct (metadata_of_Ok _ _ Hresult)
    as [(-> & -> & _)|(lat & lon & -> & -> & -> & -> & _)]; [done|].
  cbn [is_not_None andb]. intros [= <-].
  unfold coordinate_valid. by vm_compute.
Qed.

Lemma keying_snd {A K} (key : A → result K) l keyed :
  for_each (λ a, k ← key a; mret (k, a)) l = Ok keyed → keyed.*2 = l.
Proof.
  revert keyed. induction l as [|a l IH]; intros keyed; simpl.
  - by intros [= <-].
  - destruct (key a) as [k|]; simpl; [|discriminate].
    destruct (for_each _ l) as [keyed'|]; simpl; [|discriminate].
    intros [= <-]. rewrite fmap_cons. simpl. f_equal. by apply IH.
Qed.

Lemma sorted_key_Permutation (key : pydict → result datetime) l sp :
  sorted dt_lt key l = Ok sp → sp ≡ₚ l.
Proof.
  unfold sorted.
  destruct (for_each _ l) as [keyed|] eqn:Hkeyed; simpl; [|discriminate].
  destruct (sort_keyed dt_lt keyed) as [s|] eqn:Hsort; simpl; [|discriminate].
  intros [= <-]. apply keying_snd in Hkeyed as <-.
  apply sort_keyed_Ok in Hsort as [Hperm _]. by rewrite Hperm.
Qed.

(** The points of [get_analytics], one at most for each image, come out of
    [extract_metadata] with two numbers as coordinates. *)
Lemma analytics_points_valid images :
  Forall (λ p, coordinate_valid p = true ∧ get p "source" = VStr "EXIF"
               ∧ get p "landmark_name" = VNone) (analytics_points images).
Proof.
  unfold analytics_points. induction images as [|image images IH].
  - constructor.
  - cbn [omap list_omap].
    destruct (analytics_point (extract_metadata image)) as [p|] eqn:Hp;
      [|done].
    constructor; [|done].
    by destruct (analytics_point_Some _ _ Hp) as (? & ? & ? & _).
Qed.

(** X17. The points [get_analytics] hands to [calculate_risk_score] and
    [generate_travel_statistics] all have two numbers as coordinates, the
    source "EXIF" and no landmark name; there is at most one for each
    image. The missing-coordinate failure of the two functions cannot
    occur on this path. *)
Theorem analytics_points_have_numbers images :
  Forall (λ p, coordinate_valid p = true ∧ get p "source" = VStr "EXIF"
               ∧ get p "landmark_name" = VNone) (analytics_points images)
  ∧ (length (analytics_points images) ≤ length images)%nat
  ∧ ∀ risk stats points,
      get_analytics images = Ok (Analytics risk stats points) →
      Forall (λ p, coordinate_valid p = true) points
      ∧ calculate_risk_score points = Ok risk
      ∧ generate_travel_statistics points = Ok stats.
Proof.
  split; [apply analytics_points_valid|]. split.
  - unfold analytics_points. induction images as [|image images IH]; [done|].
    cbn [omap list_omap].
    destruct (analytics_point (extract_metadata image)); simpl; lia.
  - intros risk stats points. unfold get_analytics.
    pose proof (analytics_points_valid images) as Hvalid.
    destruct (analytics_points images) as [|p ps]; [done|].
    destruct (sorted dt_lt get_date (p :: ps)) as [sp|] eqn:Hsorted;
      cbn [mbind result_bind]; [|done].
    destruct (calculate_risk_score sp) as [r|] eqn:Hrisk;
      cbn [mbind result_bind]; [|done].
    destruct (generate_travel_statistics sp) as [s|] eqn:Hstats;
      cbn [mbind result_bind]; [|done].
    intros [= <- <- <-]. split; [|done].
    rewrite (sorted_key_Permutation _ _ _ Hsorted).
    eapply Forall_impl; [exact Hvalid|]. by intros q [? _].
Qed.

(** X18. [get_analytics] answers with the risk and the statistics
    whenever its sort succeeds (the dates it compares are all naive or all
    aware) and the two distances are defined on the points: no exception
    comes from a missing coordinate, a missing date or a date that does not
    parse. *)
Theorem analytics_returns images points :
  sorted dt_lt get_date (analytics_points images) = Ok points →
  points ≠ [] →
  (∀ p q c1 c2, p ∈ points → q ∈ points →
                coordinates p = Ok c1 → coordinates q = Ok c2 →
                ∃ d, geodesic_km c1 c2 = Ok d) →
  (∀ i a b c1 c2, points !! i = Some a → points !! S i = Some b →
                  coordinates a = Ok c1 → coordinates b = Ok c2 →
                  ∃ d, haversine c1 c2 = Ok d) →
  ∃ risk stats,
    get_analytics images = Ok (Analytics risk stats points)
    ∧ calculate_risk_score points = Ok risk
    ∧ generate_travel_statistics points = Ok stats
    ∧ points ≡ₚ analytics_points images.
Proof.
  intros Hsorted Hne Hgeo Hhav.
  pose proof (sorted_key_Permutation _ _ _ Hsorted) as Hperm.
  assert (Forall (λ p, coordinate_valid p = true) points) as Hvalid.
  { rewrite Hperm.
    eapply Forall_impl; [apply analytics_points_valid|]. by intros p [? _]. }
  destruct (calculate_risk_score_total points) as [risk Hrisk].
  { rewrite Forall_forall in Hvalid. intros p q Hp Hq.
    destruct (coordinate_valid_coordinates p (Hvalid p Hp)) as (la & lo & Hc1).
    destruct (coordinate_valid_coordinates q (Hvalid q Hq)) as (la' & lo' & Hc2).
    destruct (Hgeo p q _ _ Hp Hq Hc1 Hc2) as [d Hd]. by eexists _, _, d. }
  { eapply Forall_impl; [exact Hvalid|]. apply coordinate_valid_bucket. }
  destruct (generate_travel_statistics_total points Hvalid Hhav)
    as [stats Hstats].
  exists risk, stats. unfold get_analytics.
  destruct (analytics_points images) as [|p ps] eqn:Hpoints.
  { apply Permutation_nil_r in Hperm. by destruct Hne. }
  rewrite Hsorted. cbn [mbind result_bind]. rewrite Hrisk.
  cbn [mbind result_bind]. by rewrite Hstats.
Qed.

End Core.


(** ** The theorems on concrete inputs *)

#[local] Abbreviation analyze :=
  (analyze_timeline Sample.planar_km Sample.parse_timestamp Sample.float_text).
#[local] Abbreviation pair_entry :=
  (analyse_pair Sample.planar_km Sample.parse_timestamp Sample.float_text).
#[local] Abbreviation velocity_of :=
  (calculate_velocity Sample.planar_km Sample.parse_timestamp).
#[local] Abbreviation risk :=
  (calculate_risk_score Sample.planar_km Sample.parse_timestamp).
#[local] Abbreviation statistics :=
  (generate_travel_statistics Sample.float_text Sample.math_sin Sample.math_cos
     Sample.math_atan2 Sample.float_pow).

(** C9 on Berlin and Paris, given out of order: Paris comes first. *)
Lemma first_entry_unflagged_witness :
  analyze [Sample.berlin; Sample.paris]
  = Ok (Timeline [unflagged Sample.paris; pair_entry Sample.paris Sample.berlin] 2)
  ∧ movement_metrics (unflagged Sample.paris) = None
  ∧ flagged (unflagged Sample.paris) = false.
Proof.
  assert (analyze [Sample.berlin; Sample.paris]
          = Ok (Timeline [unflagged Sample.paris;
                          pair_entry Sample.paris Sample.berlin] 2)) as H
    by (vm_compute; reflexivity).
  split; [exact H|].
  exact (first_entry_unflagged _ _ _ _ _ _ _ H).
Defined.

(** C7 on a list whose second point carries a timestamp that is no date. *)
Lemma analyze_timeline_unparseable_witness :
  analyze [Sample.paris; Sample.garbled]
  = Ok (DateCastingError [Sample.paris; Sample.garbled]).
Proof.
  apply (analyze_timeline_unparseable Sample.planar_km Sample.parse_timestamp
           Sample.float_text _ Sample.garbled ValueError).
  - apply list_elem_of_further, list_elem_of_here.
  - vm_compute; reflexivity.
  - vm_compute; reflexivity.
Defined.

(** C3, as amended, on four observations out of order, one of them without
    coordinates or timestamp: the timeline is Paris, London, Berlin. *)
Lemma timeline_is_stable_sort_witness :
  analyze [Sample.berlin; Sample.no_gps; Sample.paris; Sample.london]
  = Ok (Timeline [unflagged Sample.paris;
                  pair_entry Sample.paris Sample.london;
                  pair_entry Sample.london Sample.berlin] 3)
  ∧ [Sample.paris; Sample.london; Sample.berlin]
    ≡ₚ List.filter
         (λ p, coordinate_valid p && time_valid Sample.parse_timestamp p)
         [Sample.berlin; Sample.no_gps; Sample.paris; Sample.london]
  ∧ StronglySorted (timestamp_le Sample.parse_timestamp)
      [Sample.paris; Sample.london; Sample.berlin].
Proof.
  assert (analyze [Sample.berlin; Sample.no_gps; Sample.paris; Sample.london]
          = Ok (Timeline [unflagged Sample.paris;
                          pair_entry Sample.paris Sample.london;
                          pair_entry Sample.london Sample.berlin] 3)) as H
    by (vm_compute; reflexivity).
  split; [exact H|].
  assert (∀ d, Sample.parse_timestamp EmptyString ≠ Ok d) as Hempty
    by (intros d; vm_compute; discriminate).
  assert (Forall (λ p, absent_or_nonzero (get p "latitude")
                       && absent_or_nonzero (get p "longitude") = true)
            [Sample.berlin; Sample.no_gps; Sample.paris; Sample.london])
    as Hcoords
    by (repeat (constructor; [vm_compute; reflexivity|]); constructor).
  destruct (timeline_is_stable_sort _ _ _ _ _ _ Hempty Hcoords H)
    as (Hperm & Hsorted & _).
  cbn [fmap list_fmap point unflagged] in Hperm, Hsorted.
  rewrite !point_analyse_pair in Hperm, Hsorted.
  split; [exact Hperm|exact Hsorted].
Defined.

(** C4 on two points a tenth of a degree and one second apart: the second
    entry is flagged, with the reason spelled out. *)
Lemma flag_iff_speed_above_1000_witness :
  analyze [Sample.one_second_later; Sample.origin]
  = Ok (Timeline [unflagged Sample.origin;
                  pair_entry Sample.origin Sample.one_second_later] 2)
  ∧ flagged (pair_entry Sample.origin Sample.one_second_later) = true
  ∧ ∃ m, movement_metrics (pair_entry Sample.origin Sample.one_second_later)
         = Some m
         ∧ (1000 <? speed_kmh m)%float = true
         ∧ reason (pair_entry Sample.origin Sample.one_second_later)
           = Some "Impossible velocity detected: 39960.0 km/h".
Proof.
  assert (analyze [Sample.one_second_later; Sample.origin]
          = Ok (Timeline [unflagged Sample.origin;
                          pair_entry Sample.origin Sample.one_second_later] 2)) as H
    by (vm_compute; reflexivity).
  assert (flagged (pair_entry Sample.origin Sample.one_second_later) = true)
    as Hflag by (vm_compute; reflexivity).
  split; [exact H|]. split; [exact Hflag|].
  destruct (flag_iff_speed_above_1000 _ _ _ _ _ _ 0%nat _ _ H eq_refl eq_refl)
    as (_ & Hiff & _ & Hreason & _).
  destruct (proj1 Hiff Hflag) as (m & Hm & Hspeed).
  exists m. split; [exact Hm|]. split; [exact Hspeed|].
  rewrite (Hreason m Hm Hflag).
  assert (speed_kmh m = 39960%float) as ->; [|vm_compute; reflexivity].
  assert (movement_metrics (pair_entry Sample.origin Sample.one_second_later)
          = Some {| distance_km := py_round 11.1 2; time_diff_hours := 0;
                    speed_kmh := 39960 |}) as Hm'
    by (vm_compute; reflexivity).
  rewrite Hm in Hm'. by injection Hm' as ->.
Defined.

(** C10 on a pair whose exact speed, 1000.004 km/h, is above the threshold
    and rounds to 1000.0: the entry is not flagged. *)
Lemma threshold_on_rounded_speed_witness :
  analyze [Sample.arrival; Sample.origin]
  = Ok (Timeline [unflagged Sample.origin;
                  pair_entry Sample.origin Sample.arrival] 2)
  ∧ ∃ raw,
      raw_velocity Sample.planar_km Sample.parse_timestamp
        Sample.origin Sample.arrival = Ok raw
      ∧ (1000 <? speed_kmh raw)%float = true
      ∧ py_round (speed_kmh raw) 2 = 1000%float
      ∧ flagged (pair_entry Sample.origin Sample.arrival) = false.
Proof.
  assert (analyze [Sample.arrival; Sample.origin]
          = Ok (Timeline [unflagged Sample.origin;
                          pair_entry Sample.origin Sample.arrival] 2)) as H
    by (vm_compute; reflexivity).
  split; [exact H|]. eexists. split; [vm_compute; reflexivity|].
  split; [vm_compute; reflexivity|]. split; [vm_compute; reflexivity|].
  eapply (threshold_on_rounded_speed _ _ _ _ _ _ 0%nat _ _ _ H eq_refl eq_refl).
  - vm_compute; reflexivity.
  - vm_compute; reflexivity.
Defined.

(** C2, as amended, on Paris and London. *)
Lemma speed_of_velocity_witness :
  ∃ m, velocity_of Sample.paris Sample.london = Velocity m
    ∧ ∃ raw,
        raw_velocity Sample.planar_km Sample.parse_timestamp
          Sample.paris Sample.london = Ok raw
        ∧ m = round_metrics raw
        ∧ ((time_diff_hours raw =? 0)%float = false →
           speed_kmh raw = (distance_km raw / time_diff_hours raw)%float)
        ∧ ((time_diff_hours raw =? 0)%float = true → speed_kmh raw = infinity).
Proof.
  eexists. split; [vm_compute; reflexivity|].
  apply (speed_of_velocity Sample.planar_km Sample.parse_timestamp
           Sample.paris Sample.london).
  vm_compute; reflexivity.
Defined.

(** The night rule on Paris at 23:00, London at 08:00 and Berlin at 04:00:
    two night points out of three, and the rule adds 20 to the 35 of the
    other rules. *)
Lemma night_rule_contribution_witness :
  risk [Sample.paris; Sample.london; Sample.berlin]
  = Ok {| risk_score := 55; risk_level := "High" |}
  ∧ ∃ before,
      score_before_night Sample.planar_km Sample.parse_timestamp
        [Sample.paris; Sample.london; Sample.berlin] = Ok before
      ∧ (55 = before + 20 ∨ 55 = before)
      ∧ (55 = before + 20 ↔
         [Sample.paris; Sample.london; Sample.berlin] ≠ []
         ∧ (0.5 <? int_truediv
                     (Z.of_nat (length (night_points Sample.parse_timestamp
                                          [Sample.paris; Sample.london;
                                           Sample.berlin])))
                     (Z.of_nat (length [Sample.paris; Sample.london;
                                        Sample.berlin])))%float = true)
      ∧ ((length [Sample.paris; Sample.london; Sample.berlin] ≤ 200)%nat →
         (55 = before + 20 ↔
          (length [Sample.paris; Sample.london; Sample.berlin]
           < 2 * length (night_points Sample.parse_timestamp
                           [Sample.paris; Sample.london; Sample.berlin]))%nat)).
Proof.
  assert (risk [Sample.paris; Sample.london; Sample.berlin]
          = Ok {| risk_score := 55; risk_level := "High" |}) as H
    by (vm_compute; reflexivity).
  split; [exact H|].
  exact (night_rule_contribution _ _ _ _ H).
Defined.

(** C5 on a single observation at 23:00 without coordinates: it is the
    one night point of one, a share above 0.5, and the function raises
    the [TypeError] of [round(None, 4)]. *)
Lemma night_rule_unreached_witness :
  night_points Sample.parse_timestamp [Sample.night_no_gps]
  = [Sample.night_no_gps]
  ∧ (0.5 <? int_truediv
              (Z.of_nat (length (night_points Sample.parse_timestamp
                                   [Sample.night_no_gps])))
              (Z.of_nat (length [Sample.night_no_gps])))%float = true
  ∧ coordinate_valid Sample.night_no_gps = false
  ∧ risk [Sample.night_no_gps] = Raise TypeError.
Proof.
  split; [vm_compute; reflexivity|]. split; [vm_compute; reflexivity|].
  assert (coordinate_valid Sample.night_no_gps = false) as Hinvalid
    by (vm_compute; reflexivity).
  split; [exact Hinvalid|].
  destruct (night_rule_unreached Sample.planar_km Sample.parse_timestamp
              [Sample.night_no_gps] Sample.night_no_gps
              (list_elem_of_here _ _) Hinvalid) as [e He].
  assert (risk [Sample.night_no_gps] = Raise TypeError) as Hraise
    by (vm_compute; reflexivity).
  rewrite Hraise in He. injection He as <-. exact Hraise.
Defined.

(** C6 on the same three observations. *)
Lemma risk_score_and_level_witness :
  risk [Sample.paris; Sample.london; Sample.berlin]
  = Ok {| risk_score := 55; risk_level := "High" |}
  ∧ ∃ long_range jump repeated night : bool,
      55 = (if long_range then 20 else 0) + (if jump then 15 else 0)
           + (if repeated then 15 else 0) + (if night then 20 else 0).
Proof.
  assert (risk [Sample.paris; Sample.london; Sample.berlin]
          = Ok {| risk_score := 55; risk_level := "High" |}) as H
    by (vm_compute; reflexivity).
  split; [exact H|].
  exact (proj1 (risk_score_and_level _ _ _ _ H)).
Defined.

(** C8, as amended, on Paris, London and Berlin: 1275.13 km in two
    movements, 637.56 km on average. *)
Lemma movements_and_average_witness :
  statistics [Sample.paris; Sample.london; Sample.berlin]
  = Ok {| total_distance_km := 1275.13; unique_locations_count := 3;
          most_visited_location := "Lat: 48.8566, Lng: 2.3522";
          average_movement_km := 637.56; total_movements := 2 |}
  ∧ ∃ distances,
      consecutive_distances Sample.math_sin Sample.math_cos Sample.math_atan2
        Sample.float_pow
        (List.filter coordinate_valid
           [Sample.paris; Sample.london; Sample.berlin])
      = Ok distances
      ∧ length distances = 2%nat
      ∧ 1275.13%float = py_round (float_sum distances) 2
      ∧ 637.56%float = py_round (float_sum distances / float_of_int 2) 2.
Proof.
  assert (statistics [Sample.paris; Sample.london; Sample.berlin]
          = Ok {| total_distance_km := 1275.13; unique_locations_count := 3;
                  most_visited_location := "Lat: 48.8566, Lng: 2.3522";
                  average_movement_km := 637.56; total_movements := 2 |}) as H
    by (vm_compute; reflexivity).
  split; [exact H|].
  destruct (movements_and_average _ _ _ _ _ _ _ H)
    as (_ & distances & Hdistances & Hlen & Htotal & Haverage & _).
  cbn [total_movements total_distance_km average_movement_km] in *.
  exists distances. split; [exact Hdistances|]. split; [exact Hlen|].
  split; [exact Htotal|]. apply Haverage. lia.
Defined.

(** ** Where the specification and the code part *)

(** C2 fails on a point paired with itself: distance and time difference
    are both zero and the speed is infinite, not zero. *)
Lemma zero_distance_zero_time_is_infinite :
  velocity_of Sample.paris Sample.paris
  = Velocity {| distance_km := 0; time_diff_hours := 0; speed_kmh := infinity |}.
Proof. vm_compute; reflexivity. Qed.

(** C3 fails on a point of the prime meridian, which is coordinate-valid and
    time-valid and gets no entry; and on a list with one timestamp that
    does not parse, where the valid point gets no entry either. *)
Lemma valid_points_without_entry :
  (coordinate_valid Sample.greenwich
   && time_valid Sample.parse_timestamp Sample.greenwich = true
   ∧ analyze [Sample.greenwich] = Ok (Timeline [] 0))
  ∧ (coordinate_valid Sample.paris
     && time_valid Sample.parse_timestamp Sample.paris = true
     ∧ analyze [Sample.paris; Sample.garbled]
       = Ok (DateCastingError [Sample.paris; Sample.garbled])).
Proof. repeat split; vm_compute; reflexivity. Qed.

(** C8 fails on Paris, London and Berlin, where the average returned, 637.56,
    is not the distance returned, 1275.13, divided by the two movements; and
    on a list with an observation without coordinates, where nothing is
    returned. *)
Lemma average_is_rounded_separately :
  (∃ r, statistics [Sample.paris; Sample.london; Sample.berlin] = Ok r
     ∧ total_movements r = 2%nat
     ∧ total_distance_km r = 0x1.3ec851eb851ecp+10%float
     ∧ average_movement_km r = 0x1.3ec7ae147ae14p+9%float
     ∧ (average_movement_km r =? total_distance_km r / 2)%float = false)
  ∧ statistics [Sample.paris; Sample.no_gps] = Raise TypeError.
Proof.
  split; [eexists; split; [vm_compute; reflexivity|]|];
    repeat split; vm_compute; reflexivity.
Qed.

(** ** Further properties on concrete inputs *)

#[local] Abbreviation analytics_of :=
  (get_analytics Sample.planar_km Sample.parse_timestamp Sample.float_text
     Sample.math_sin Sample.math_cos Sample.math_atan2 Sample.float_pow Sample.exception_text).

(** X1 on four observations out of order, one of them without coordinates
    or timestamp. *)
Lemma timeline_of_truthy_points_witness :
  analyze [Sample.berlin; Sample.no_gps; Sample.paris; Sample.london]
  = Ok (Timeline [unflagged Sample.paris;
                  pair_entry Sample.paris Sample.london;
                  pair_entry Sample.london Sample.berlin] 3)
  ∧ [Sample.paris; Sample.london; Sample.berlin]
    ≡ₚ List.filter valid_point
         [Sample.berlin; Sample.no_gps; Sample.paris; Sample.london]
  ∧ StronglySorted (timestamp_le Sample.parse_timestamp)
      [Sample.paris; Sample.london; Sample.berlin].
Proof.
  assert (analyze [Sample.berlin; Sample.no_gps; Sample.paris; Sample.london]
          = Ok (Timeline [unflagged Sample.paris;
                          pair_entry Sample.paris Sample.london;
                          pair_entry Sample.london Sample.berlin] 3)) as H
    by (vm_compute; reflexivity).
  split; [exact H|].
  destruct (timeline_of_truthy_points _ _ _ _ _ _ H) as (Hperm & Hsorted & _).
  cbn [fmap list_fmap point unflagged] in Hperm, Hsorted.
  rewrite !point_analyse_pair in Hperm, Hsorted.
  split; [exact Hperm|exact Hsorted].
Defined.

(** X2 on two points a tenth of a degree and one second apart. *)
Lemma flagged_entries_explained_witness :
  analyze [Sample.one_second_later; Sample.origin]
  = Ok (Timeline [unflagged Sample.origin;
                  pair_entry Sample.origin Sample.one_second_later] 2)
  ∧ flagged (pair_entry Sample.origin Sample.one_second_later) = true
  ∧ reason (pair_entry Sample.origin Sample.one_second_later) ≠ None
  ∧ ∃ m, movement_metrics (pair_entry Sample.origin Sample.one_second_later)
         = Some m
         ∧ (1000 <? speed_kmh m)%float = true.
Proof.
  assert (analyze [Sample.one_second_later; Sample.origin]
          = Ok (Timeline [unflagged Sample.origin;
                          pair_entry Sample.origin Sample.one_second_later] 2)) as H
    by (vm_compute; reflexivity).
  assert (flagged (pair_entry Sample.origin Sample.one_second_later) = true)
    as Hflag by (vm_compute; reflexivity).
  split; [exact H|]. split; [exact Hflag|].
  destruct (flagged_entries_explained _ _ _ _ _ _
              (pair_entry Sample.origin Sample.one_second_later) H)
    as [Hiff Hmetrics].
  { apply list_elem_of_further, list_elem_of_here. }
  split; [exact (proj1 Hiff Hflag)|exact (Hmetrics Hflag)].
Defined.

(** X3 on a point without position and a point on the prime meridian,
    whose longitude 0.0 is not truthy. *)
Lemma no_valid_points_empty_timeline_witness :
  Forall (λ p, valid_point p = false) [Sample.no_gps; Sample.greenwich]
  ∧ analyze [Sample.no_gps; Sample.greenwich] = Ok (Timeline [] 0).
Proof.
  assert (Forall (λ p, valid_point p = false)
            [Sample.no_gps; Sample.greenwich]) as Hnone
    by (repeat (constructor; [vm_compute; reflexivity|]); constructor).
  split; [exact Hnone|].
  exact (no_valid_points_empty_timeline Sample.planar_km
           Sample.parse_timestamp Sample.float_text _ Hnone).
Defined.

(** X4 on Berlin, Paris and London in two orders. *)
Lemma timeline_order_independent_witness :
  analyze [Sample.berlin; Sample.paris; Sample.london]
  = Ok (Timeline [unflagged Sample.paris;
                  pair_entry Sample.paris Sample.london;
                  pair_entry Sample.london Sample.berlin] 3)
  ∧ analyze [Sample.london; Sample.berlin; Sample.paris]
    = Ok (Timeline [unflagged Sample.paris;
                    pair_entry Sample.paris Sample.london;
                    pair_entry Sample.london Sample.berlin] 3).
Proof.
  assert (analyze [Sample.berlin; Sample.paris; Sample.london]
          = Ok (Timeline [unflagged Sample.paris;
                          pair_entry Sample.paris Sample.london;
                          pair_entry Sample.london Sample.berlin] 3)) as H
    by (vm_compute; reflexivity).
  split; [exact H|].
  apply (timeline_order_independent Sample.planar_km Sample.parse_timestamp
           Sample.float_text [Sample.berlin; Sample.paris; Sample.london]);
    [|clear H|exact H].
  - apply (Permutation_cons_append [Sample.paris; Sample.london] Sample.berlin
           ) || (symmetry; apply (Permutation_app_comm [Sample.london]
                                    [Sample.berlin; Sample.paris])).
  - intros p q d d' Hp Hq Hd Hd' Heq.
    repeat (apply elem_of_cons in Hp as [->|Hp]);
      [| | |by apply elem_of_nil in Hp];
      (repeat (apply elem_of_cons in Hq as [->|Hq]);
       [| | |by apply elem_of_nil in Hq]);
      try reflexivity;
      vm_compute in Hd, Hd'; injection Hd as <-; injection Hd' as <-;
      vm_compute in Heq; discriminate Heq.
Defined.

(** X5 on Paris and London, for a distance that is symmetric. *)
Lemma velocity_direction_agnostic_witness :
  ∃ m, velocity_of Sample.paris Sample.london = Velocity m
       ∧ velocity_of Sample.london Sample.paris = Velocity m.
Proof.
  eexists. split; [vm_compute; reflexivity|].
  apply (velocity_direction_agnostic Sample.planar_km Sample.parse_timestamp
           Sample.paris Sample.london).
  - intros c1 c2 Hc1 Hc2. vm_compute in Hc1, Hc2.
    injection Hc1 as <-. injection Hc2 as <-. vm_compute. reflexivity.
  - vm_compute. reflexivity.
Defined.

(** X6 on four observations of the same place, all at night. *)
Lemma repeated_visits_rule_witness :
  risk [Sample.paris; Sample.paris; Sample.paris; Sample.paris]
  = Ok {| risk_score := 35; risk_level := "Medium" |}
  ∧ ∃ base coords visits night,
      distance_score Sample.planar_km Sample.parse_timestamp
        [Sample.paris; Sample.paris; Sample.paris; Sample.paris] = Ok base
      ∧ for_each bucket [Sample.paris; Sample.paris; Sample.paris; Sample.paris]
        = Ok coords
      ∧ 35 = base + visits + night
      ∧ (visits = 0 ∨ visits = 15) ∧ (night = 0 ∨ night = 20)
      ∧ (Forall (λ k, bucket_eqb k k = true) coords →
         visits = 15 ↔ ∃ k, k ∈ coords ∧ (3 < occurrences k coords)%nat).
Proof.
  assert (risk [Sample.paris; Sample.paris; Sample.paris; Sample.paris]
          = Ok {| risk_score := 35; risk_level := "Medium" |}) as H
    by (vm_compute; reflexivity).
  split; [exact H|].
  destruct (repeated_visits_rule _ _ _ _ H)
    as (base & coords & visits & night & Hbase & Hcoords & Hscore & Hvisits
        & Hnight & _ & Hiff).
  exists base, coords, visits, night.
  repeat (split; [assumption|]). exact Hiff.
Defined.

(** X7 on Paris, London and Berlin. *)
Lemma risk_score_returns_witness :
  Forall (λ p, coordinate_valid p = true)
    [Sample.paris; Sample.london; Sample.berlin]
  ∧ ∃ r, risk [Sample.paris; Sample.london; Sample.berlin] = Ok r.
Proof.
  assert (Forall (λ p, coordinate_valid p = true)
            [Sample.paris; Sample.london; Sample.berlin]) as Hvalid
    by (repeat (constructor; [vm_compute; reflexivity|]); constructor).
  split; [exact Hvalid|].
  apply (risk_score_returns Sample.planar_km Sample.parse_timestamp _ Hvalid).
  intros p q c1 c2 Hp Hq Hc1 Hc2.
  repeat (apply elem_of_cons in Hp as [->|Hp]);
    [| | |by apply elem_of_nil in Hp];
    (repeat (apply elem_of_cons in Hq as [->|Hq]);
     [| | |by apply elem_of_nil in Hq]);
    vm_compute in Hc1, Hc2; injection Hc1 as <-; injection Hc2 as <-;
    eexists; vm_compute; reflexivity.
Defined.

(** X8 on two observations without timestamp. *)
Lemma no_timestamps_low_risk_witness :
  risk [Sample.undated_paris; Sample.undated_london]
  = Ok {| risk_score := 0; risk_level := "Low" |}
  ∧ distance_score Sample.planar_km Sample.parse_timestamp
      [Sample.undated_paris; Sample.undated_london] = Ok 0.
Proof.
  assert (risk [Sample.undated_paris; Sample.undated_london]
          = Ok {| risk_score := 0; risk_level := "Low" |}) as H
    by (vm_compute; reflexivity).
  split; [exact H|].
  assert (∀ d, Sample.parse_timestamp EmptyString ≠ Ok d) as Hempty
    by (intros d; vm_compute; discriminate).
  assert (Forall (λ p, truthy (get p "datetime") = false)
            [Sample.undated_paris; Sample.undated_london]) as Hnone
    by (repeat (constructor; [vm_compute; reflexivity|]); constructor).
  exact (proj1 (no_timestamps_low_risk _ _ _ _ Hempty Hnone H)).
Defined.

(** X9 on two observations without position. *)
Lemma no_coordinates_default_statistics_witness :
  Forall (λ p, has_coordinates p = false) [Sample.no_gps; Sample.no_gps]
  ∧ statistics [Sample.no_gps; Sample.no_gps]
    = Ok {| total_distance_km := 0; unique_locations_count := 0;
            most_visited_location := "None"; average_movement_km := 0;
            total_movements := 0 |}.
Proof.
  assert (Forall (λ p, has_coordinates p = false)
            [Sample.no_gps; Sample.no_gps]) as Hnone
    by (repeat (constructor; [vm_compute; reflexivity|]); constructor).
  split; [exact Hnone|].
  exact (no_coordinates_default_statistics Sample.float_text Sample.math_sin
           Sample.math_cos Sample.math_atan2 Sample.float_pow _ Hnone).
Defined.

(** X10 on Paris twice and London: two locations for three points. *)
Lemma unique_locations_bounds_witness :
  ∃ r, statistics [Sample.paris; Sample.paris; Sample.london] = Ok r
       ∧ unique_locations_count r = 2%nat
       ∧ (unique_locations_count r
          ≤ length (List.filter coordinate_valid
                      [Sample.paris; Sample.paris; Sample.london]))%nat
       ∧ (0 < unique_locations_count r)%nat.
Proof.
  eexists. split; [vm_compute; reflexivity|]. split; [reflexivity|].
  assert (statistics [Sample.paris; Sample.paris; Sample.london]
          = Ok {| total_distance_km := 343.56; unique_locations_count := 2;
                  most_visited_location := "Lat: 48.8566, Lng: 2.3522 (2 visits)";
                  average_movement_km := 171.78; total_movements := 2 |}) as H
    by (vm_compute; reflexivity).
  destruct (unique_locations_bounds _ _ _ _ _ _ _ H) as (Hle & Hpos & _).
  split; [exact Hle|]. apply Hpos. vm_compute. lia.
Defined.

(** X11 on Paris twice and London: the bucket of Paris wins with 2
    visits, and is named by its coordinates, for want of a landmark. *)
Lemma most_visited_is_largest_bucket_witness :
  statistics [Sample.paris; Sample.paris; Sample.london]
  = Ok {| total_distance_km := 343.56; unique_locations_count := 2;
          most_visited_location := "Lat: 48.8566, Lng: 2.3522 (2 visits)";
          average_movement_km := 171.78; total_movements := 2 |}
  ∧ ∃ top count,
      top ∈ [(48.8566, 2.3522); (48.8566, 2.3522); (51.5074, -0.1278)]%float
      ∧ count
        = occurrences top
            [(48.8566, 2.3522); (48.8566, 2.3522); (51.5074, -0.1278)]%float
      ∧ (occurrences (48.8566, 2.3522)%float
           [(48.8566, 2.3522); (48.8566, 2.3522); (51.5074, -0.1278)]%float
         ≤ count)%nat.
Proof.
  assert (statistics [Sample.paris; Sample.paris; Sample.london]
          = Ok {| total_distance_km := 343.56; unique_locations_count := 2;
                  most_visited_location := "Lat: 48.8566, Lng: 2.3522 (2 visits)";
                  average_movement_km := 171.78; total_movements := 2 |}) as H
    by (vm_compute; reflexivity).
  split; [exact H|].
  assert (for_each bucket
            (List.filter has_coordinates
               [Sample.paris; Sample.paris; Sample.london])
          = Ok [(48.8566, 2.3522); (48.8566, 2.3522); (51.5074, -0.1278)]%float)
    as Hcoords by (vm_compute; reflexivity).
  destruct (most_visited_is_largest_bucket _ _ _ _ _ _ _ _ H Hcoords)
    as (top & count & landmark_name & Htop & Hcount & Hmax & _).
  { discriminate. }
  { repeat (constructor; [vm_compute; reflexivity|]); constructor. }
  exists top, count. split; [exact Htop|]. split; [exact Hcount|].
  apply Hmax, list_elem_of_here.
Defined.

(** X12 on Paris, London and Berlin. *)
Lemma statistics_return_witness :
  Forall (λ p, coordinate_valid p = true)
    [Sample.paris; Sample.london; Sample.berlin]
  ∧ ∃ r, statistics [Sample.paris; Sample.london; Sample.berlin] = Ok r
         ∧ total_movements r = 2%nat.
Proof.
  assert (Forall (λ p, coordinate_valid p = true)
            [Sample.paris; Sample.london; Sample.berlin]) as Hvalid
    by (repeat (constructor; [vm_compute; reflexivity|]); constructor).
  split; [exact Hvalid|].
  apply (statistics_return Sample.float_text Sample.math_sin Sample.math_cos
           Sample.math_atan2 Sample.float_pow _ Hvalid).
  intros i a b c1 c2 Ha Hb Hc1 Hc2.
  destruct i as [|[|i]]; cbn in Ha, Hb; [| |by destruct i];
    injection Ha as <-; injection Hb as <-;
    vm_compute in Hc1, Hc2; injection Hc1 as <-; injection Hc2 as <-;
    eexists; vm_compute; reflexivity.
Defined.

(** X14 on 51 degrees, 30 minutes and 26.64 seconds, south and north. *)
Lemma south_and_west_negated_witness :
  _get_decimal_from_dms Sample.dms_51_30_26 "S" = Ok (-51.5074)%float
  ∧ _get_decimal_from_dms Sample.dms_51_30_26 "S"
    = (λ decimal, (- decimal)%float)
        <$> _get_decimal_from_dms Sample.dms_51_30_26 "N"
  ∧ abs <$> _get_decimal_from_dms Sample.dms_51_30_26 "S"
    = abs <$> _get_decimal_from_dms Sample.dms_51_30_26 "N".
Proof.
  split; [vm_compute; reflexivity|].
  apply south_and_west_negated.
  - apply list_elem_of_here.
  - apply (bool_decide_unpack _). vm_compute. exact I.
Defined.

(** X18 on four files: London, a file that is no image, an image without
    position, Paris. The two points come out in the order of their dates. *)
Lemma analytics_returns_witness :
  ∃ risk stats,
    analytics_of [Decoded Sample.london_exif;
                  DecodeError "cannot identify image file";
                  Decoded Sample.no_gps_exif; Decoded Sample.paris_exif]
    = Ok (Analytics risk stats [Sample.paris_point; Sample.london_point])
    ∧ calculate_risk_score Sample.planar_km Sample.parse_timestamp
        [Sample.paris_point; Sample.london_point] = Ok risk
    ∧ generate_travel_statistics Sample.float_text Sample.math_sin
        Sample.math_cos Sample.math_atan2 Sample.float_pow
        [Sample.paris_point; Sample.london_point] = Ok stats.
Proof.
  assert (∀ p q c1 c2,
            p ∈ [Sample.paris_point; Sample.london_point] →
            q ∈ [Sample.paris_point; Sample.london_point] →
            coordinates p = Ok c1 → coordinates q = Ok c2 →
            ∃ d, Sample.planar_km c1 c2 = Ok d) as Hgeo.
  { intros p q c1 c2 Hp Hq Hc1 Hc2.
    repeat (apply elem_of_cons in Hp as [->|Hp]);
      [| |by apply elem_of_nil in Hp];
      (repeat (apply elem_of_cons in Hq as [->|Hq]);
       [| |by apply elem_of_nil in Hq]);
      vm_compute in Hc1, Hc2; injection Hc1 as <-; injection Hc2 as <-;
      eexists; vm_compute; reflexivity. }
  assert (∀ i a b c1 c2,
            [Sample.paris_point; Sample.london_point] !! i = Some a →
            [Sample.paris_point; Sample.london_point] !! S i = Some b →
            coordinates a = Ok c1 → coordinates b = Ok c2 →
            ∃ d, haversine Sample.math_sin Sample.math_cos Sample.math_atan2 Sample.float_pow
                   c1 c2 = Ok d) as Hhav.
  { intros i a b c1 c2 Ha Hb Hc1 Hc2.
    destruct i as [|i]; cbn in Ha, Hb; [|by destruct i].
    injection Ha as <-. injection Hb as <-.
    vm_compute in Hc1, Hc2. injection Hc1 as <-. injection Hc2 as <-.
    eexists. vm_compute. reflexivity. }
  assert (sorted dt_lt (get_date Sample.parse_timestamp)
            (analytics_points Sample.exception_text
               [Decoded Sample.london_exif;
                DecodeError "cannot identify image file";
                Decoded Sample.no_gps_exif; Decoded Sample.paris_exif])
          = Ok [Sample.paris_point; Sample.london_point]) as Hsorted
    by (vm_cast_no_check (eq_refl (Ok [Sample.paris_point; Sample.london_point]))).
  destruct (analytics_returns Sample.planar_km Sample.parse_timestamp
              Sample.float_text Sample.math_sin Sample.math_cos
              Sample.math_atan2 Sample.float_pow Sample.exception_text _ _ Hsorted
              ltac:(discriminate) Hgeo Hhav)
    as (risk & stats & Hanalytics & Hrisk & Hstats & _).
  exists risk, stats. split; [exact Hanalytics|]. split; assumption.
Defined.
